(** * The generated-plan contract validator

    A shallow embedding of [scripts/validate_generated_plan_contract.py]
    and the properties of its [validate] function.

    The validator walks an already parsed JSON document (phases, then
    milestones, then tasks), appends a message to a list for every rule
    that is broken and returns the list.  The document is untyped: the
    code guards the containers with [isinstance] and reads the record
    fields with [dict.get], which raises [AttributeError] on anything
    that is not a mapping.  Both the accumulated list and the possible
    exception are part of the model, and so is the [ValueError] of
    [int] on a run of more than 4300 digits. *)

From Stdlib Require Import String Ascii List ZArith Bool Lia.
From Stdlib Require Import DecimalString.
From Stdlib Require Import DecimalZ DecimalPos.
Import ListNotations.
Local Open Scope string_scope.
Local Open Scope Z_scope.

(** ** Python values

    What [json.loads] can return.  A string is a sequence of code points
    below 256 (one [ascii] each); in that range the class [\d] of [re] is
    exactly the ten ASCII digits.  An object is the list of its bindings
    in insertion order, the first binding of a key being the one that
    [dict.get] sees.  The validator never computes with a number of the
    document: it can only print one, so an integer and a float are
    carried by the text that [repr] gives for them.  An integer of more
    than 4300 digits has no such text ([str] refuses it, and so does
    [json.loads]) and is not a value of the model.  The lengths that the
    validator prints are those of lists in memory, far below that
    limit. *)

#[warning="-register-all"]
Inductive json : Type :=
| JNull
| JBool (b : bool)
| JInt (text : string)
| JFloat (text : string)
| JStr (s : string)
| JList (items : list json)
| JDict (fields : list (string * json)).

Definition PHASE_MIN : Z := 7.
Definition WAVE_MIN : Z := 5.
Definition MILESTONE_EXACT : Z := 4.
Definition TASK_EXACT : Z := 15.

(** [len(x)] of a list. *)
Definition len {A : Type} (l : list A) : Z := Z.of_nat (length l).

(** [str(n)] of a length or a threshold, as an f-string prints it. *)
Definition str_int (n : Z) : string := NilZero.string_of_int (Z.to_int n).

Module PyStr.

Definition code (c : ascii) : N := N_of_ascii c.

(** [str.isprintable] on one code point below 256. *)
Definition printable (c : ascii) : bool :=
  let n := code c in
  ((32 <=? n) && (n <=? 126) || (161 <=? n) && negb (n =? 173))%N.

Definition hex_digit (n : N) : ascii :=
  ascii_of_N (if (n <? 10)%N then 48 + n else 87 + n)%N.

Fixpoint contains_char (c : ascii) (s : string) : bool :=
  match s with
  | EmptyString => false
  | String d rest => Ascii.eqb c d || contains_char c rest
  end.

(** The quote [repr] picks: a double quote only for a string that has a
    single quote and no double quote. *)
Definition quote_of (s : string) : ascii :=
  if contains_char "'"%char s && negb (contains_char "034"%char s)
  then "034"%char else "'"%char.

Definition escape_char (q c : ascii) : string :=
  if Ascii.eqb c "\"%char then "\\"
  else if Ascii.eqb c q then String "\"%char (String c EmptyString)
  else if (code c =? 9)%N then "\t"
  else if (code c =? 10)%N then "\n"
  else if (code c =? 13)%N then "\r"
  else if printable c then String c EmptyString
  else String "\"%char (String "x"%char
         (String (hex_digit (code c / 16)) (String (hex_digit (code c mod 16)) EmptyString))).

Fixpoint escape (q : ascii) (s : string) : string :=
  match s with
  | EmptyString => EmptyString
  | String c rest => escape_char q c ++ escape q rest
  end.

(** [repr(s)] of a string. *)
Definition repr_str (s : string) : string :=
  let q := quote_of s in
  String q (escape q s ++ String q EmptyString).

(** [repr(v)]. *)
Fixpoint repr (v : json) : string :=
  match v with
  | JNull => "None"
  | JBool true => "True"
  | JBool false => "False"
  | JInt text => text
  | JFloat text => text
  | JStr s => repr_str s
  | JList items => "[" ++ String.concat ", " (map repr items) ++ "]"
  | JDict fields =>
      "{" ++ String.concat ", "
               (map (fun kv => repr_str (fst kv) ++ ": " ++ repr (snd kv)) fields)
          ++ "}"
  end.

(** [str(v)], which is also how an f-string field prints [v]: a string
    is itself, any other value prints as its [repr]. *)
Definition str (v : json) : string :=
  match v with
  | JStr s => s
  | _ => repr v
  end.

End PyStr.

(** ** Exceptions

    What a call can raise: [AttributeError] from [.get] on a value that
    is not a mapping, [TypeError] from [in] on a value that is not a
    container, [ValueError] from [int] on too long a run of digits. *)

Inductive exn : Type := AttributeError | TypeError | ValueError.

Inductive outcome (A : Type) : Type :=
| Ret (a : A)
| Raise (e : exn).
Arguments Ret {A} a.
Arguments Raise {A} e.

(** ** Marker extraction *)

Definition is_digit (c : ascii) : bool :=
  let n := N_of_ascii c in ((48 <=? n) && (n <=? 57))%N.

Definition digit_value (c : ascii) : Z := Z.of_N (N_of_ascii c) - 48.

(** The longest run of digits at the head of [s]: what the greedy [\d+]
    takes once it has started. *)
Fixpoint leading_digits (s : string) : list ascii :=
  match s with
  | EmptyString => []
  | String c rest => if is_digit c then c :: leading_digits rest else []
  end.

(** The value of a run of decimal digits. *)
Definition int_of_digits (ds : list ascii) : Z :=
  fold_left (fun acc c => 10 * acc + digit_value c) ds 0.

(** The default of [sys.get_int_max_str_digits()]. *)
Definition INT_MAX_STR_DIGITS : Z := 4300.

(** [int(digits)] on a run of decimal digits: the value, or a
    [ValueError] when the run, zeros in front included, has more digits
    than the limit. *)
Definition py_int (ds : list ascii) : outcome Z :=
  if INT_MAX_STR_DIGITS <? len ds then Raise ValueError else Ret (int_of_digits ds).

(** What is left of [s] after the literal [p], when [s] starts with it. *)
Fixpoint strip_prefix (p s : string) : option string :=
  match p, s with
  | EmptyString, _ => Some s
  | String a p', String b s' => if Ascii.eqb a b then strip_prefix p' s' else None
  | String _ _, EmptyString => None
  end.

(** The pattern [marker(\d+)] anchored at the head of [s]: the digits of
    its group. *)
Definition match_here (marker s : string) : option (list ascii) :=
  match strip_prefix marker s with
  | Some rest =>
      match leading_digits rest with
      | [] => None
      | ds => Some ds
      end
  | None => None
  end.

(** [re.search] of the pattern in [value]: the start positions are tried
    from the left and the first match is returned; the result is its
    group 1. *)
Fixpoint search (marker value : string) : option (list ascii) :=
  match match_here marker value with
  | Some ds => Some ds
  | None =>
      match value with
      | EmptyString => None
      | String _ rest => search marker rest
      end
  end.

(** Lines 25-30. *)
Definition _extract_index (value marker : string) : outcome (option Z) :=
  match search marker value with
  | None => Ret None
  | Some ds =>
      match py_int ds with
      | Ret n => Ret (Some n)
      | Raise e => Raise e
      end
  end.

(** ** Dictionaries and membership *)

Fixpoint lookup (key : string) (fields : list (string * json)) : option json :=
  match fields with
  | [] => None
  | (k, v) :: rest => if String.eqb key k then Some v else lookup key rest
  end.

Definition has_key (key : string) (fields : list (string * json)) : bool :=
  match lookup key fields with Some _ => true | None => false end.

Fixpoint is_substring (p s : string) : bool :=
  match strip_prefix p s with
  | Some _ => true
  | None =>
      match s with
      | EmptyString => false
      | String _ rest => is_substring p rest
      end
  end.

(** ** The accumulator

    [validate] threads one list, [errors], through the whole traversal
    and only ever appends to it.  A computation takes the list as it is
    and either returns a value with the list as it has become, or raises,
    in which case the list is lost with the frame of [validate]. *)

Definition M (A : Type) : Type := list string -> outcome (A * list string).

Definition ret {A : Type} (a : A) : M A := fun errors => Ret (a, errors).

Definition raise {A : Type} (e : exn) : M A := fun _ => Raise e.

Definition bind {A B : Type} (c : M A) (k : A -> M B) : M B :=
  fun errors =>
    match c errors with
    | Ret (a, errors') => k a errors'
    | Raise e => Raise e
    end.

Declare Scope py_scope.
Delimit Scope py_scope with py.
Notation "x <- c ;; k" := (bind c (fun x => k))
  (at level 61, c at next level, right associativity) : py_scope.
Notation "c ;; k" := (bind c (fun _ => k))
  (at level 61, right associativity) : py_scope.
Local Open Scope py_scope.

(** A call that does not touch the list. *)
Definition lift {A : Type} (o : outcome A) : M A :=
  fun errors =>
    match o with
    | Ret a => Ret (a, errors)
    | Raise e => Raise e
    end.

(** [_err(errors, message)]. *)
Definition _err (message : string) : M unit :=
  fun errors => Ret (tt, (errors ++ [message])%list).

(** [obj.get(key, default)]: only a [dict] has the method. *)
Definition py_get (obj : json) (key : string) (default : json) : M json :=
  match obj with
  | JDict fields =>
      ret (match lookup key fields with Some v => v | None => default end)
  | _ => raise AttributeError
  end.

(** [key not in obj] for a string [key]. *)
Definition py_not_in (key : string) (obj : json) : M bool :=
  match obj with
  | JDict fields => ret (negb (has_key key fields))
  | JList items =>
      ret (negb (existsb (fun v => match v with JStr s => String.eqb key s | _ => false end) items))
  | JStr s => ret (negb (is_substring key s))
  | _ => raise TypeError
  end.

(** A [for] loop whose body updates the variables [s] that outlive an
    iteration; a [continue] is the body returning early. *)
Fixpoint for_loop {A S : Type} (body : A -> S -> M S) (xs : list A) (s : S) : M S :=
  match xs with
  | [] => ret s
  | x :: rest => s' <- body x s ;; for_loop body rest s'
  end.

(** [enumerate(xs, start)]. *)
Fixpoint enumerate {A : Type} (start : Z) (xs : list A) : list (Z * A) :=
  match xs with
  | [] => []
  | x :: rest => (start, x) :: enumerate (start + 1) rest
  end.

(** ** The validator *)

(** How an f-string prints a field. *)
Abbreviation fmt := PyStr.str.

(** Lines 90-96: the marker of a task against the running index; the
    value is [prev_t_index] afterwards. *)
Definition check_task_marker (pid mid : json) (tid : string) (prev_t_index : Z) : M Z :=
  t_index <- lift (_extract_index tid "T") ;;
  match t_index with
  | None =>
      _err (fmt pid ++ ": " ++ fmt mid ++ ": task missing sequence marker: " ++ tid) ;;
      ret prev_t_index
  | Some t_index =>
      if t_index <=? prev_t_index then
        _err (fmt pid ++ ": " ++ fmt mid ++ ": task sequence is not strict") ;;
        ret prev_t_index
      else ret t_index
  end.

(** Lines 89-99: the body of [for task in tasks]; the value is
    [prev_t_index] after the iteration. *)
Definition task_body (pid mid task : json) (prev_t_index : Z) : M Z :=
  tid_value <- py_get task "task_id" (JStr EmptyString) ;;
  let tid := PyStr.str tid_value in
  prev_t_index <- check_task_marker pid mid tid prev_t_index ;;
  absent <- py_not_in "done_criteria" task ;;
  (if absent then _err (fmt pid ++ ": " ++ fmt mid ++ ": " ++ tid ++ ": missing done_criteria")
   else ret tt) ;;
  ret prev_t_index.

(** Lines 68-74: the marker of a milestone against the running index;
    the value is [prev_m_index] afterwards. *)
Definition check_milestone_marker (pid mid : json) (prev_m_index : Z) : M Z :=
  m_index <- lift (_extract_index (PyStr.str mid) "M") ;;
  match m_index with
  | None =>
      _err (fmt pid ++ ": " ++ fmt mid ++ ": missing milestone sequence marker") ;;
      ret prev_m_index
  | Some m_index =>
      if m_index <=? prev_m_index then
        _err (fmt pid ++ ": " ++ fmt mid ++ ": milestone sequence is not strict") ;;
        ret prev_m_index
      else ret m_index
  end.

(** Lines 66-104: the body of [for milestone in milestones]; the value is
    [prev_m_index] after the iteration. *)
Definition milestone_body (pid milestone : json) (prev_m_index : Z) : M Z :=
  mid <- py_get milestone "milestone_id" (JStr (fmt pid ++ ":milestone")) ;;
  prev_m_index <- check_milestone_marker pid mid prev_m_index ;;
  tasks <- py_get milestone "tasks" JNull ;;
  match tasks with
  | JList tasks =>
      (if negb (len tasks =? TASK_EXACT) then
         _err (fmt pid ++ ": " ++ fmt mid ++ ": task_count=" ++ str_int (len tasks)
                 ++ " != " ++ str_int TASK_EXACT)
       else ret tt) ;;
      for_loop (task_body pid mid) tasks 0 ;;
      no_unit_gate <- py_not_in "unit_gate" milestone ;;
      (if no_unit_gate then _err (fmt pid ++ ": " ++ fmt mid ++ ": missing unit_gate")
       else ret tt) ;;
      no_integration_gate <- py_not_in "integration_gate" milestone ;;
      (if no_integration_gate then
         _err (fmt pid ++ ": " ++ fmt mid ++ ": missing integration_gate")
       else ret tt) ;;
      ret prev_m_index
  | _ =>
      _err (fmt pid ++ ": " ++ fmt mid ++ ": missing tasks[]") ;;
      ret prev_m_index
  end.

(** Lines 45-118: the body of [for phase_idx, phase in enumerate(phases, start=1)]. *)
Definition phase_body (entry : Z * json) (_ : unit) : M unit :=
  let (phase_idx, phase) := entry in
  pid <- py_get phase "phase_id" (JStr ("phase[" ++ str_int phase_idx ++ "]")) ;;
  waves <- py_get phase "waves" JNull ;;
  match waves with
  | JList waves =>
      if len waves <? WAVE_MIN then
        _err (fmt pid ++ ": wave_count=" ++ str_int (len waves) ++ " < " ++ str_int WAVE_MIN)
      else ret tt
  | _ => _err (fmt pid ++ ": missing waves[]")
  end ;;
  milestones <- py_get phase "milestones" JNull ;;
  match milestones with
  | JList milestones =>
      (if negb (len milestones =? MILESTONE_EXACT) then
         _err (fmt pid ++ ": milestone_count=" ++ str_int (len milestones)
                 ++ " != " ++ str_int MILESTONE_EXACT)
       else ret tt) ;;
      for_loop (milestone_body pid) milestones 0 ;;
      phase_gates <- py_get phase "phase_gates" (JDict []) ;;
      match phase_gates with
      | JDict _ =>
          no_e2e <- py_not_in "phase_end_e2e" phase_gates ;;
          (if no_e2e then _err (fmt pid ++ ": missing phase_gates.phase_end_e2e")
           else ret tt) ;;
          if 1 <? phase_idx then
            no_inter <- py_not_in "rolling_inter_phase_integration" phase_gates ;;
            (if no_inter then _err (fmt pid ++ ": missing rolling_inter_phase_integration")
             else ret tt) ;;
            no_cumulative <- py_not_in "rolling_cumulative_e2e" phase_gates ;;
            (if no_cumulative then _err (fmt pid ++ ": missing rolling_cumulative_e2e")
             else ret tt)
          else ret tt
      | _ => _err (fmt pid ++ ": phase_gates must be an object")
      end
  | _ => _err (fmt pid ++ ": missing milestones[]")
  end.

(** Lines 36-118, on the list [errors] as it stands. *)
Definition validate_from (plan : json) : M unit :=
  phases <- py_get plan "phases" JNull ;;
  match phases with
  | JList phases =>
      (if len phases <? PHASE_MIN then
         _err ("phase_count=" ++ str_int (len phases) ++ " < " ++ str_int PHASE_MIN)
       else ret tt) ;;
      for_loop phase_body (enumerate 1 phases) tt
  | _ => _err "Missing required array: phases"
  end.

(** [validate(plan)]: the traversal on a fresh list, which is returned. *)
Definition validate (plan : json) : outcome (list string) :=
  match validate_from plan [] with
  | Ret (_, errors) => Ret errors
  | Raise e => Raise e
  end.

(** ** Sample documents *)

Definition nat_str (n : nat) : string := str_int (Z.of_nat n).

Definition sample_task (k : nat) : json :=
  JDict [("task_id", JStr ("T" ++ nat_str k)); ("done_criteria", JStr "reviewed")].

Definition sample_tasks (first count : nat) : list json :=
  map sample_task (seq first count).

Definition sample_milestone (p : string) (first_task : nat) (k : nat) : json :=
  JDict [("milestone_id", JStr (p ++ "-M" ++ nat_str k));
         ("tasks", JList (sample_tasks first_task 15));
         ("unit_gate", JStr "unit");
         ("integration_gate", JStr "integration")].

Definition all_gates : json :=
  JDict [("phase_end_e2e", JBool true);
         ("rolling_inter_phase_integration", JBool true);
         ("rolling_cumulative_e2e", JBool true)].

Definition sample_phase_with (gates : json) (first_milestone first_task : nat) (k : nat) : json :=
  let p := "P" ++ nat_str k in
  JDict [("phase_id", JStr p);
         ("waves", JList (repeat JNull 5));
         ("milestones", JList (map (sample_milestone p first_task) (seq first_milestone 4)));
         ("phase_gates", gates)].

Definition sample_phase : nat -> json := sample_phase_with all_gates 1 1.

Definition plan_of (phases : list json) : json := JDict [("phases", JList phases)].

Definition sample_plan (count : nat) : json := plan_of (map sample_phase (seq 1 count)).


(** ** Reading the document

    The accessors of the document and what the validator makes of the
    identifier fields: the display id of a phase, the identifier of a
    milestone with its stand-in, the text of a task id, and the call of
    [_extract_index] on each. *)

Module Reads.

(** A field of an object; nothing for a value that is not an object. *)
Definition field (key : string) (v : json) : option json :=
  match v with
  | JDict fields => lookup key fields
  | _ => None
  end.

Definition is_object (v : json) : bool :=
  match v with JDict _ => true | _ => false end.

Definition present (key : string) (v : json) : bool :=
  match field key v with Some _ => true | None => false end.

Definition or_default (default : json) (o : option json) : json :=
  match o with Some v => v | None => default end.

Definition sequence (o : option json) : option (list json) :=
  match o with Some (JList items) => Some items | _ => None end.

(** The running index after a sibling: advanced only by a marker that
    is there and strictly greater. *)
Definition advance (prev : Z) (marker : option Z) : Z :=
  match marker with
  | Some i => if prev <? i then i else prev
  | None => prev
  end.

(** Line 45. *)
Definition phase_ident (phase_idx : Z) (phase : json) : json :=
  or_default (JStr ("phase[" ++ str_int phase_idx ++ "]")) (field "phase_id" phase).

(** Line 66. *)
Definition milestone_ident (pid milestone : json) : json :=
  or_default (JStr (fmt pid ++ ":milestone")) (field "milestone_id" milestone).

(** Line 89. *)
Definition task_ident (task : json) : string :=
  PyStr.str (or_default (JStr EmptyString) (field "task_id" task)).

(** Line 68. *)
Definition milestone_marker (pid milestone : json) : outcome (option Z) :=
  _extract_index (PyStr.str (milestone_ident pid milestone)) "M".

(** Line 90. *)
Definition task_marker (task : json) : outcome (option Z) :=
  _extract_index (task_ident task) "T".

(** The index of the first match, as it is when conversions have no
    limit. *)
Definition index (letter value : string) : option Z :=
  option_map int_of_digits (search letter value).

(** No conversion of [value] for [letter] hits the limit. *)
Definition short (letter value : string) : bool :=
  match search letter value with
  | Some ds => len ds <=? INT_MAX_STR_DIGITS
  | None => true
  end.

Definition milestone_index (pid milestone : json) : option Z :=
  index "M" (PyStr.str (milestone_ident pid milestone)).

Definition task_index (task : json) : option Z := index "T" (task_ident task).

End Reads.

(** ** The contract, stated on the document

    The rules of the contract as the specification words them, as
    conditions on the document: the thresholds on the counts, a
    [milestone_id] and a [task_id] that are strings and hold a marker,
    the markers strictly increasing from 0, the gates and the completion
    criteria in place. *)

Module Contract.
Import Reads.

(** Every marker is there and strictly greater than the one before it,
    the comparison starting at [prev]. *)
Fixpoint strictly_above (prev : Z) (markers : list (option Z)) : bool :=
  match markers with
  | [] => true
  | None :: _ => false
  | Some i :: rest => (prev <? i) && strictly_above i rest
  end.

(** The marker of an identifier field: the field holds a string and the
    string holds the letter followed by digits; the value is that of the
    first such run. *)
Definition id_marker (key letter : string) (v : json) : option Z :=
  match field key v with
  | Some (JStr s) => index letter s
  | _ => None
  end.

Definition task_conforms (task : json) : bool :=
  is_object task && present "done_criteria" task.

Definition milestone_conforms (milestone : json) : bool :=
  is_object milestone
  && match sequence (field "tasks" milestone) with
     | Some tasks =>
         (len tasks =? TASK_EXACT)
         && forallb task_conforms tasks
         && strictly_above 0 (map (id_marker "task_id" "T") tasks)
     | None => false
     end
  && present "unit_gate" milestone
  && present "integration_gate" milestone.

Definition gates_conform (phase_idx : Z) (phase : json) : bool :=
  let gates := or_default (JDict []) (field "phase_gates" phase) in
  is_object gates
  && present "phase_end_e2e" gates
  && ((phase_idx <=? 1)
      || present "rolling_inter_phase_integration" gates
         && present "rolling_cumulative_e2e" gates).

Definition phase_conforms (entry : Z * json) : bool :=
  let (phase_idx, phase) := entry in
  is_object phase
  && match sequence (field "waves" phase) with
     | Some waves => WAVE_MIN <=? len waves
     | None => false
     end
  && match sequence (field "milestones" phase) with
     | Some milestones =>
         (len milestones =? MILESTONE_EXACT)
         && forallb milestone_conforms milestones
         && strictly_above 0 (map (id_marker "milestone_id" "M") milestones)
     | None => false
     end
  && gates_conform phase_idx phase.

(** The phases conform, each at its 1-based position. *)
Definition phases_conform (phases : list json) : bool :=
  forallb phase_conforms (enumerate 1 phases).

Definition conforms (plan : json) : bool :=
  match sequence (field "phases" plan) with
  | Some phases => (PHASE_MIN <=? len phases) && phases_conform phases
  | None => false
  end.

End Contract.

(** ** The regular document

    A document of the regular shape: seven phases, five waves and four
    milestones a phase, fifteen tasks a milestone, string identifiers
    that carry their marker, every gate in place.  With [from_one] the
    first marker of every run is at least 1; without it the markers are
    only asked to increase. *)

Module Regular.
Import Reads.

Fixpoint increasing (l : list Z) : bool :=
  match l with
  | a :: (b :: _) as rest => (a <? b) && increasing rest
  | _ => true
  end.

Fixpoint all_present (l : list (option Z)) : option (list Z) :=
  match l with
  | [] => Some []
  | None :: _ => None
  | Some i :: rest =>
      match all_present rest with
      | Some zs => Some (i :: zs)
      | None => None
      end
  end.

Definition markers_in_order (from_one : bool) (l : list (option Z)) : bool :=
  match all_present l with
  | Some zs =>
      increasing zs
      && (negb from_one || match zs with i :: _ => 1 <=? i | [] => true end)
  | None => false
  end.

(** The marker in an identifier field that holds a string. *)
Definition marker_in (key marker : string) (v : json) : option Z :=
  match field key v with
  | Some (JStr s) => index marker s
  | _ => None
  end.

Definition regular_milestone (from_one : bool) (milestone : json) : bool :=
  match sequence (field "tasks" milestone) with
  | Some tasks =>
      (length tasks =? 15)%nat
      && markers_in_order from_one (map (marker_in "task_id" "T") tasks)
      && forallb (present "done_criteria") tasks
  | None => false
  end
  && present "unit_gate" milestone
  && present "integration_gate" milestone.

Definition regular_gates (first : bool) (phase : json) : bool :=
  match field "phase_gates" phase with
  | Some (JDict gates) =>
      has_key "phase_end_e2e" gates
      && (first
          || has_key "rolling_inter_phase_integration" gates
             && has_key "rolling_cumulative_e2e" gates)
  | _ => false
  end.

Definition regular_phase (from_one first : bool) (phase : json) : bool :=
  match sequence (field "waves" phase) with
  | Some waves => (length waves =? 5)%nat
  | None => false
  end
  && match sequence (field "milestones" phase) with
     | Some milestones =>
         (length milestones =? 4)%nat
         && markers_in_order from_one (map (marker_in "milestone_id" "M") milestones)
         && forallb (regular_milestone from_one) milestones
     | None => false
     end
  && regular_gates first phase.

Definition regular (from_one : bool) (plan : json) : bool :=
  match sequence (field "phases" plan) with
  | Some (first :: others) =>
      (length others =? 6)%nat
      && regular_phase from_one true first
      && forallb (regular_phase from_one false) others
  | _ => false
  end.

End Regular.

(** ** Documents made of mappings, identifiers within the limit

    [shaped]: the plan, every element of [phases], every element of a
    [milestones] that is a sequence and every element of a [tasks] that
    is a sequence is a mapping: what the [.get] calls of the traversal
    need.  [within]: no identifier that the traversal converts has a
    marker of more than 4300 digits: what its [int] calls need.
    [string_ids]: every milestone has a [milestone_id] that is a string,
    and a [task_id] that is there is a string. *)

Module Shape.
Import Reads.

Definition milestone_shaped (milestone : json) : bool :=
  is_object milestone
  && match sequence (field "tasks" milestone) with
     | Some tasks => forallb is_object tasks
     | None => true
     end.

Definition phase_shaped (phase : json) : bool :=
  is_object phase
  && match sequence (field "milestones" phase) with
     | Some milestones => forallb milestone_shaped milestones
     | None => true
     end.

Definition shaped (plan : json) : bool :=
  is_object plan
  && match sequence (field "phases" plan) with
     | Some phases => forallb phase_shaped phases
     | None => true
     end.

Definition task_within (task : json) : bool := short "T" (task_ident task).

Definition milestone_within (pid milestone : json) : bool :=
  short "M" (PyStr.str (milestone_ident pid milestone))
  && match sequence (field "tasks" milestone) with
     | Some tasks => forallb task_within tasks
     | None => true
     end.

Definition phase_within (entry : Z * json) : bool :=
  let (phase_idx, phase) := entry in
  match sequence (field "milestones" phase) with
  | Some milestones => forallb (milestone_within (phase_ident phase_idx phase)) milestones
  | None => true
  end.

Definition within (plan : json) : bool :=
  match sequence (field "phases" plan) with
  | Some phases => forallb phase_within (enumerate 1 phases)
  | None => true
  end.

Definition task_string_id (task : json) : bool :=
  match field "task_id" task with
  | Some (JStr _) | None => true
  | Some _ => false
  end.

Definition milestone_string_ids (milestone : json) : bool :=
  match field "milestone_id" milestone with
  | Some (JStr _) => true
  | _ => false
  end
  && match sequence (field "tasks" milestone) with
     | Some tasks => forallb task_string_id tasks
     | None => true
     end.

Definition phase_string_ids (phase : json) : bool :=
  match sequence (field "milestones" phase) with
  | Some milestones => forallb milestone_string_ids milestones
  | None => true
  end.

Definition string_ids (plan : json) : bool :=
  match sequence (field "phases" plan) with
  | Some phases => forallb phase_string_ids phases
  | None => true
  end.

End Shape.

(** ** What the validator accepts

    The documents on which the traversal writes nothing, read off the
    code: as the contract, but with every identifier read the way the
    code reads it, through its stand-in and [str], and converted by
    [_extract_index]. *)

Module Accepts.
Import Reads.
Import Contract.

(** The index that a call of [_extract_index] returned. *)
Definition found (o : outcome (option Z)) : option Z :=
  match o with
  | Ret (Some i) => Some i
  | _ => None
  end.

Definition task_accepted (task : json) : bool :=
  is_object task && present "done_criteria" task.

Definition milestone_accepted (milestone : json) : bool :=
  is_object milestone
  && match sequence (field "tasks" milestone) with
     | Some tasks =>
         (len tasks =? TASK_EXACT)
         && forallb task_accepted tasks
         && strictly_above 0 (map (fun task => found (task_marker task)) tasks)
     | None => false
     end
  && present "unit_gate" milestone
  && present "integration_gate" milestone.

Definition phase_accepted (entry : Z * json) : bool :=
  let (phase_idx, phase) := entry in
  is_object phase
  && match sequence (field "waves" phase) with
     | Some waves => WAVE_MIN <=? len waves
     | None => false
     end
  && match sequence (field "milestones" phase) with
     | Some milestones =>
         (len milestones =? MILESTONE_EXACT)
         && forallb milestone_accepted milestones
         && strictly_above 0
              (map (fun milestone =>
                      found (milestone_marker (phase_ident phase_idx phase) milestone))
                 milestones)
     | None => false
     end
  && gates_conform phase_idx phase.

Definition accepted (plan : json) : bool :=
  match sequence (field "phases" plan) with
  | Some phases => (PHASE_MIN <=? len phases) && forallb phase_accepted (enumerate 1 phases)
  | None => false
  end.

End Accepts.

(** ** Reading a computation

    [frame errors o] is the outcome [o] of a run that started on the empty
    list, seen from a run that started on [errors].  A computation
    [appends] when every run of it is the frame of its run on the empty
    list: the list is written at its end and never read.  It is [clean]
    when it returns without having written. *)

Definition frame {A : Type} (errors : list string) (o : outcome (A * list string))
  : outcome (A * list string) :=
  match o with
  | Ret (a, written) => Ret (a, (errors ++ written)%list)
  | Raise e => Raise e
  end.

Definition appends {A : Type} (c : M A) : Prop :=
  forall errors, c errors = frame errors (c []).

Definition clean {A : Type} (c : M A) (a : A) : Prop := c [] = Ret (a, []).

(** A run that does not raise. *)
Definition returns {A : Type} (c : M A) (errors : list string) : Prop :=
  exists r, c errors = Ret r.

(** The message of a check that failed, or nothing. *)
Definition when_ (failed : bool) (message : string) : list string :=
  if failed then [message] else [].

(** What the marker check of a milestone writes for the index it
    got (lines 69-72). *)
Definition milestone_marker_report (pid mid : json) (prev : Z) (marker : option Z)
  : list string :=
  match marker with
  | None => [fmt pid ++ ": " ++ fmt mid ++ ": missing milestone sequence marker"]
  | Some i => when_ (i <=? prev) (fmt pid ++ ": " ++ fmt mid ++ ": milestone sequence is not strict")
  end.

(** What the checks of a task write for the index they got (lines 91-94
    and 98-99). *)
Definition task_report (pid mid : json) (fields : list (string * json)) (prev : Z)
    (marker : option Z) : list string :=
  let tid := Reads.task_ident (JDict fields) in
  List.app
    match marker with
    | None => [fmt pid ++ ": " ++ fmt mid ++ ": task missing sequence marker: " ++ tid]
    | Some i => when_ (i <=? prev) (fmt pid ++ ": " ++ fmt mid ++ ": task sequence is not strict")
    end
    (when_ (negb (has_key "done_criteria" fields))
       (fmt pid ++ ": " ++ fmt mid ++ ": " ++ tid ++ ": missing done_criteria")).

(** What the check on [waves] writes (lines 47-51). *)
Definition waves_report (pid : json) (fields : list (string * json)) : list string :=
  match lookup "waves" fields with
  | Some (JList waves) =>
      when_ (len waves <? WAVE_MIN)
        (fmt pid ++ ": wave_count=" ++ str_int (len waves) ++ " < " ++ str_int WAVE_MIN)
  | _ => [fmt pid ++ ": missing waves[]"]
  end.

(** What the checks on [waves] and on the number of milestones write
    (lines 47-51 and 58-62). *)
Definition phase_head_report (pid : json) (fields : list (string * json))
    (milestones : list json) : list string :=
  List.app (waves_report pid fields)
    (when_ (negb (len milestones =? MILESTONE_EXACT))
       (fmt pid ++ ": milestone_count=" ++ str_int (len milestones)
          ++ " != " ++ str_int MILESTONE_EXACT)).

(** What the checks on the gates of a phase write (lines 111-118). *)
Definition gate_report (pid : json) (phase_idx : Z) (gates : list (string * json))
  : list string :=
  List.app
    (when_ (negb (has_key "phase_end_e2e" gates))
       (fmt pid ++ ": missing phase_gates.phase_end_e2e"))
    (if 1 <? phase_idx then
       List.app
         (when_ (negb (has_key "rolling_inter_phase_integration" gates))
            (fmt pid ++ ": missing rolling_inter_phase_integration"))
         (when_ (negb (has_key "rolling_cumulative_e2e" gates))
            (fmt pid ++ ": missing rolling_cumulative_e2e"))
     else []).

(** What lines 106-118 write for the value taken as the gates of a
    phase. *)
Definition phase_gates_report (pid : json) (phase_idx : Z) (gates : json) : list string :=
  match gates with
  | JDict gates => gate_report pid phase_idx gates
  | _ => [fmt pid ++ ": phase_gates must be an object"]
  end.

(** ** More sample documents *)

(** Seven regular phases whose milestones are numbered from 0. *)
Definition zero_based_plan : json :=
  plan_of (map (sample_phase_with all_gates 0 1) (seq 1 7)).

(** A milestone that has only its identifier. *)
Definition bare_milestone (id : string) : json := JDict [("milestone_id", JStr id)].

(** A phase named [id] with five waves, the given milestones and gates. *)
Definition phase_of (id : string) (milestones : list json) (gates : json) : json :=
  JDict [("phase_id", JStr id);
         ("waves", JList (repeat JNull 5));
         ("milestones", JList milestones);
         ("phase_gates", gates)].

(** A phase without the key [milestones]. *)
Definition phase_without_milestones (id : string) (gates : json) : json :=
  JDict [("phase_id", JStr id); ("waves", JList (repeat JNull 5)); ("phase_gates", gates)].

Definition gates_without_inter : json :=
  JDict [("phase_end_e2e", JBool true); ("rolling_cumulative_e2e", JBool true)].

(** The sample plan with its [k]-th phase (from 1) replaced. *)
Definition with_phase (k : nat) (phase : json) : json :=
  plan_of (map (fun i => if (i =? k)%nat then phase else sample_phase i) (seq 1 7)).

Definition full_milestone (id : string) (tasks : list json) : json :=
  JDict [("milestone_id", JStr id);
         ("tasks", JList tasks);
         ("unit_gate", JStr "unit");
         ("integration_gate", JStr "integration")].

Definition unmarked_task : json :=
  JDict [("task_id", JStr "task-x"); ("done_criteria", JStr "reviewed")].

(** A run of 4301 digits, one more than [int] converts. *)
Definition long_digits : string := string_of_list_ascii (repeat "1"%char 4301).

(** The sample plan with the last task of the last milestone of its
    first phase renamed to [T] followed by [long_digits]. *)
Definition long_task : json :=
  JDict [("task_id", JStr ("T" ++ long_digits)); ("done_criteria", JStr "reviewed")].

Definition long_marker_phase : json :=
  phase_of "P1"
    (map (sample_milestone "P1" 1) (seq 1 3)
       ++ [full_milestone "P1-M4" (sample_tasks 1 14 ++ [long_task])])
    all_gates.

Definition long_marker_plan : json :=
  plan_of (long_marker_phase :: map sample_phase (seq 2 6)).


(** The sample plan with, as its first phase, a phase named [M1] whose
    first milestone has no [milestone_id]. *)
Definition nameless_milestone : json :=
  JDict [("tasks", JList (sample_tasks 1 15));
         ("unit_gate", JStr "unit");
         ("integration_gate", JStr "integration")].

Definition stand_in_plan : json :=
  with_phase 1
    (phase_of "M1"
       (nameless_milestone
        :: map (fun id => full_milestone id (sample_tasks 1 15)) ["M2"; "M3"; "M4"])
       all_gates).



(** ** What the validator reads

    The skeleton of a document keeps what the traversal looks at and
    nothing else: the identifiers as they are, the sequences by their
    length and their elements' skeletons, the gates and [done_criteria]
    by their presence alone. *)

Module Skeleton.
Import Reads.

(** The binding of [key], if there is one. *)
Definition keep (key : string) (fields : list (string * json)) : list (string * json) :=
  match lookup key fields with
  | Some v => [(key, v)]
  | None => []
  end.

(** The key alone, bound to [None], if it is bound at all. *)
Definition mark (key : string) (fields : list (string * json)) : list (string * json) :=
  if has_key key fields then [(key, JNull)] else [].

Definition task_skeleton (task : json) : json :=
  match task with
  | JDict fields => JDict (keep "task_id" fields ++ mark "done_criteria" fields)
  | _ => task
  end.

Definition milestone_skeleton (milestone : json) : json :=
  match milestone with
  | JDict fields =>
      JDict (keep "milestone_id" fields
             ++ match sequence (lookup "tasks" fields) with
                | Some tasks => [("tasks", JList (map task_skeleton tasks))]
                | None => []
                end
             ++ mark "unit_gate" fields
             ++ mark "integration_gate" fields)
  | _ => milestone
  end.

Definition gates_skeleton (gates : json) : json :=
  match gates with
  | JDict fields =>
      JDict (mark "phase_end_e2e" fields
             ++ mark "rolling_inter_phase_integration" fields
             ++ mark "rolling_cumulative_e2e" fields)
  | _ => JNull
  end.

Definition phase_skeleton (phase : json) : json :=
  match phase with
  | JDict fields =>
      JDict (keep "phase_id" fields
             ++ match sequence (lookup "waves" fields) with
                | Some waves => [("waves", JList (repeat JNull (length waves)))]
                | None => []
                end
             ++ match sequence (lookup "milestones" fields) with
                | Some milestones => [("milestones", JList (map milestone_skeleton milestones))]
                | None => []
                end
             ++ match lookup "phase_gates" fields with
                | Some gates => [("phase_gates", gates_skeleton gates)]
                | None => []
                end)
  | _ => phase
  end.

Definition skeleton (plan : json) : json :=
  match plan with
  | JDict fields =>
      JDict match sequence (lookup "phases" fields) with
            | Some phases => [("phases", JList (map phase_skeleton phases))]
            | None => []
            end
  | _ => plan
  end.

End Skeleton.

(** What the checks of one phase write on their own. *)
Definition phase_report (entry : Z * json) : list string :=
  match phase_body entry tt [] with
  | Ret (_, written) => written
  | Raise _ => []
  end.

(** A computation all of whose messages start with [p]. *)
Definition writes_prefixed {A : Type} (p : string) (c : M A) : Prop :=
  forall errors a errors',
    c errors = Ret (a, errors') ->
    exists written, errors' = (errors ++ written)%list
                    /\ Forall (fun message => prefix p message = true) written.

(** ** The command line

    [main] sees the arguments, the file system and [json.loads].  The
    world is what it can ask of them: the text [str(Path(arg))] of a
    path, whether the path exists, the text of the file (nothing when
    [read_text] raises) and what [json.loads] makes of a text: a
    document, a [JSONDecodeError] with its message, or another
    exception.  A run of [main] ends with a status and the lines it
    printed, or with an exception that nothing catches. *)

Module Cli.

(** What [json.loads] makes of a text. *)
Inductive loaded : Type :=
| Parsed (plan : json)
| JSONDecodeError (message : string)
| ParserRaised.

Record world : Type := {
  path_text : string -> string;
  path_exists : string -> bool;
  read_text : string -> option string;
  loads : string -> loaded
}.

Inductive crash : Type :=
| ReadFailed
| ParserFailed
| ValidateFailed (e : exn).

Inductive result : Type :=
| Exit (status : Z) (printed : list string)
| Crash (why : crash).

(** Lines 123-147: [main].  The lines printed are in the order of the
    calls to [print]. *)
Definition main (w : world) (argv : list string) : result :=
  if negb (len argv =? 2) then
    Exit 2 ["usage: validate_generated_plan_contract.py <plan.json>"]
  else
    let arg := nth 1 argv EmptyString in
    if negb (path_exists w arg) then
      Exit 2 ["error: file not found: " ++ path_text w arg]
    else
      match read_text w arg with
      | None => Crash ReadFailed
      | Some text =>
          match loads w text with
          | JSONDecodeError message => Exit 2 ["error: invalid json: " ++ message]
          | ParserRaised => Crash ParserFailed
          | Parsed plan =>
              match validate plan with
              | Raise e => Crash (ValidateFailed e)
              | Ret errors =>
                  match errors with
                  | _ :: _ =>
                      Exit 1 ("contract validation failed:"
                                :: map (fun err => "- " ++ err) errors)
                  | [] => Exit 0 ["contract validation passed"]
                  end
              end
          end
      end.

(** The plan that [main] hands to [validate], when it gets that far. *)
Definition plan_read (w : world) (argv : list string) : option json :=
  match argv with
  | [_; arg] =>
      if path_exists w arg then
        match read_text w arg with
        | Some text =>
            match loads w text with
            | Parsed plan => Some plan
            | _ => None
            end
        | None => None
        end
      else None
  | _ => None
  end.

(** A world with one file. *)
Definition one_file (name text : string) (content : loaded) : world :=
  {| path_text := fun p => p;
     path_exists := fun p => String.eqb p name;
     read_text := fun p => if String.eqb p name then Some text else None;
     loads := fun _ => content |}.

End Cli.

(** * Properties *)

Section Frames.

Context {A B : Type}.

Lemma appends_ret (a : A) : appends (ret a).
Proof. intros errors. unfold ret, frame. now rewrite app_nil_r. Qed.

Lemma appends_raise (e : exn) : appends (@raise A e).
Proof. intros errors. reflexivity. Qed.

Lemma appends_bind (c : M A) (k : A -> M B) :
  appends c -> (forall a, appends (k a)) -> appends (bind c k).
Proof.
  intros Hc Hk errors. unfold bind.
  rewrite (Hc errors). destruct (c []) as [[a written] | e]; simpl; [| reflexivity].
  rewrite (Hk a (errors ++ written)%list), (Hk a written).
  destruct (k a []) as [[b written'] | e]; simpl; [| reflexivity].
  now rewrite app_assoc.
Qed.

Lemma bind_clean (c : M A) (k : A -> M B) (b : B) :
  (forall a, appends (k a)) ->
  clean (bind c k) b <-> exists a, clean c a /\ clean (k a) b.
Proof.
  intros Hk. unfold clean, bind. split.
  - destruct (c []) as [[a written] | e]; [| discriminate].
    rewrite (Hk a written).
    destruct (k a []) as [[b' written'] | e] eqn:Hka; simpl; [| discriminate].
    intros H. injection H as -> H. apply app_eq_nil in H as [-> ->].
    exists a. split; [reflexivity | exact Hka].
  - intros (a & -> & H). exact H.
Qed.

End Frames.

Lemma appends_err (message : string) : appends (_err message).
Proof. intros errors. reflexivity. Qed.

Lemma appends_lift {A : Type} (o : outcome A) : appends (lift o).
Proof. intros errors. destruct o; unfold lift, frame; [now rewrite app_nil_r | reflexivity]. Qed.

Lemma appends_py_get (obj : json) (key : string) (default : json) :
  appends (py_get obj key default).
Proof. destruct obj; first [apply appends_raise | apply appends_ret]. Qed.

Lemma appends_py_not_in (key : string) (obj : json) : appends (py_not_in key obj).
Proof. destruct obj; first [apply appends_raise | apply appends_ret]. Qed.

Lemma appends_for_loop {A S : Type} (body : A -> S -> M S) (xs : list A) :
  (forall x s, appends (body x s)) -> forall s, appends (for_loop body xs s).
Proof.
  intros Hbody. induction xs as [| x rest IH]; intros s; simpl.
  - apply appends_ret.
  - apply appends_bind; [apply Hbody | exact IH].
Qed.

(** One step of the proof that a computation of the validator appends. *)
Ltac appends_step :=
  first
    [ apply appends_ret
    | apply appends_raise
    | apply appends_err
    | apply appends_lift
    | apply appends_py_get
    | apply appends_py_not_in
    | apply appends_bind; [| intros ?]
    | match goal with
      | |- appends (if ?b then _ else _) => destruct b
      | |- appends (match ?x with _ => _ end) => destruct x
      end ].

Lemma appends_check_task_marker pid mid tid prev :
  appends (check_task_marker pid mid tid prev).
Proof. unfold check_task_marker. repeat appends_step. Qed.

Lemma appends_task_body pid mid task prev : appends (task_body pid mid task prev).
Proof.
  unfold task_body.
  repeat first [apply appends_check_task_marker | appends_step].
Qed.

Lemma appends_check_milestone_marker pid mid prev :
  appends (check_milestone_marker pid mid prev).
Proof. unfold check_milestone_marker. repeat appends_step. Qed.

Lemma appends_milestone_body pid milestone prev :
  appends (milestone_body pid milestone prev).
Proof.
  unfold milestone_body.
  repeat first
    [ apply appends_check_milestone_marker
    | apply appends_for_loop; intros; apply appends_task_body
    | appends_step ].
Qed.

Lemma appends_phase_body entry u : appends (phase_body entry u).
Proof.
  unfold phase_body. destruct entry as [phase_idx phase].
  repeat first
    [ apply appends_for_loop; intros; apply appends_milestone_body
    | appends_step ].
Qed.

Lemma appends_validate_from plan : appends (validate_from plan).
Proof.
  unfold validate_from.
  repeat first
    [ apply appends_for_loop; intros; apply appends_phase_body
    | appends_step ].
Qed.

(** ** The validator is silent exactly on what it accepts *)

Import Reads.
Import Contract.
Import Accepts.

Lemma check_task_marker_clean pid mid tid prev p :
  clean (check_task_marker pid mid tid prev) p <->
  found (_extract_index tid "T") = Some p /\ prev < p.
Proof.
  unfold clean, check_task_marker, found.
  destruct (_extract_index tid "T") as [[i |] | e];
    unfold bind, lift, _err, ret; simpl;
    [destruct (Z.leb_spec i prev) as [Hle | Hgt] | |].
  - split; [discriminate | intros [Hi Hlt]; inversion Hi; subst; lia].
  - split; [intros Hr; inversion Hr; subst; now split | intros [Hi _]; now inversion Hi].
  - split; [discriminate | intros [Hi _]; discriminate Hi].
  - split; [discriminate | intros [Hi _]; discriminate Hi].
Qed.

Lemma check_milestone_marker_clean pid mid prev p :
  clean (check_milestone_marker pid mid prev) p <->
  found (_extract_index (PyStr.str mid) "M") = Some p /\ prev < p.
Proof.
  unfold clean, check_milestone_marker, found.
  destruct (_extract_index (PyStr.str mid) "M") as [[i |] | e];
    unfold bind, lift, _err, ret; simpl;
    [destruct (Z.leb_spec i prev) as [Hle | Hgt] | |].
  - split; [discriminate | intros [Hi Hlt]; inversion Hi; subst; lia].
  - split; [intros Hr; inversion Hr; subst; now split | intros [Hi _]; now inversion Hi].
  - split; [discriminate | intros [Hi _]; discriminate Hi].
  - split; [discriminate | intros [Hi _]; discriminate Hi].
Qed.

Lemma task_body_clean pid mid task prev p :
  clean (task_body pid mid task prev) p <->
  task_accepted task = true /\ found (task_marker task) = Some p /\ prev < p.
Proof.
  destruct task as [| | | | | | fields];
    try (split; [intros H; discriminate H | intros [H _]; discriminate H]).
  unfold task_body, task_accepted, task_marker, task_ident, present, field, is_object.
  unfold clean, py_get, py_not_in, has_key, bind, ret. cbn [andb].
  change (match lookup "task_id" fields with Some v => v | None => JStr EmptyString end)
    with (or_default (JStr EmptyString) (lookup "task_id" fields)).
  set (tid := PyStr.str (or_default (JStr EmptyString) (lookup "task_id" fields))).
  pose proof (check_task_marker_clean pid mid tid prev p) as Hc. unfold clean in Hc.
  destruct (check_task_marker pid mid tid prev []) as [[q w] | e];
    destruct (lookup "done_criteria" fields); cbn [negb];
    unfold _err; rewrite <- Hc.
  - split; [intros H; now split | intros [_ H]; exact H].
  - split; [intros H; inversion H; now destruct w | intros [H _]; discriminate H].
  - split; [discriminate | intros [_ H]; exact H].
  - split; [discriminate | intros [H _]; discriminate H].
Qed.

Lemma clean_ret {A : Type} (a b : A) : clean (ret a) b <-> a = b.
Proof. unfold clean, ret. split; intros H; [now inversion H | now subst]. Qed.

Lemma clean_check (failed : bool) (message : string) :
  clean (if failed then _err message else ret tt) tt <-> failed = false.
Proof.
  unfold clean. destruct failed; unfold _err, ret; simpl; split; intros H;
    first [discriminate H | reflexivity].
Qed.

Ltac solve_appends :=
  intros;
  repeat first
    [ apply appends_check_task_marker
    | apply appends_check_milestone_marker
    | apply appends_for_loop; intros;
      first [apply appends_task_body | apply appends_milestone_body | apply appends_phase_body]
    | appends_step ].

(** A loop that carries a running index is clean exactly when every
    element passes on its own and the markers rise strictly from the
    index the loop starts with. *)
Lemma for_loop_clean_markers {A : Type}
    (body : A -> Z -> M Z) (ok : A -> bool) (marker : A -> option Z) :
  (forall x s, appends (body x s)) ->
  (forall x s s', clean (body x s) s' <-> ok x = true /\ marker x = Some s' /\ s < s') ->
  forall xs s,
    (exists s', clean (for_loop body xs s) s') <->
    forallb ok xs = true /\ strictly_above s (map marker xs) = true.
Proof.
  intros Happ Hbody. induction xs as [| x rest IH]; intros s; simpl.
  - split; [intros _; now split | intros _; exists s; reflexivity].
  - split.
    + intros [s' H].
      apply bind_clean in H as (s1 & H1 & H2); [| intros; now apply appends_for_loop].
      apply Hbody in H1 as (Hok & Hm & Hlt).
      destruct (proj1 (IH s1) (ex_intro _ s' H2)) as [Hall Hrest].
      rewrite Hok, Hm, Hall, Hrest. apply Z.ltb_lt in Hlt. now rewrite Hlt.
    + intros [Hall Habove]. apply andb_prop in Hall as [Hok Hall].
      destruct (marker x) as [i |] eqn:Hm; [| discriminate Habove].
      apply andb_prop in Habove as [Hlt Habove]. apply Z.ltb_lt in Hlt.
      destruct (proj2 (IH i) (conj Hall Habove)) as [s' Hs'].
      exists s'. apply bind_clean; [intros; now apply appends_for_loop |].
      exists i. split; [apply Hbody; now repeat split | exact Hs'].
Qed.

Lemma tasks_loop_clean pid mid tasks :
  (exists p, clean (for_loop (task_body pid mid) tasks 0) p) <->
  forallb task_accepted tasks = true
  /\ strictly_above 0 (map (fun task => found (task_marker task)) tasks) = true.
Proof.
  apply for_loop_clean_markers.
  - intros. apply appends_task_body.
  - intros. apply task_body_clean.
Qed.

Lemma bind_get {B : Type} fields key default (k : json -> M B) :
  bind (py_get (JDict fields) key default) k = k (or_default default (lookup key fields)).
Proof. reflexivity. Qed.

Lemma bind_not_in {B : Type} fields key (k : bool -> M B) :
  bind (py_not_in key (JDict fields)) k = k (negb (has_key key fields)).
Proof. reflexivity. Qed.

Lemma clean_err_bind {B : Type} (message : string) (k : unit -> M B) (b : B) :
  (forall u, appends (k u)) -> ~ clean (bind (_err message) k) b.
Proof.
  intros Hk H. unfold clean, bind, _err in H. simpl in H. rewrite (Hk tt) in H.
  destruct (k tt []) as [[b' w] | e]; simpl in H; discriminate H.
Qed.

Lemma clean_err (message : string) (u : unit) : ~ clean (_err message) u.
Proof. intros H. discriminate H. Qed.

Lemma clean_check_bind {B : Type} (failed : bool) (message : string) (k : unit -> M B) (b : B) :
  (forall u, appends (k u)) ->
  clean (bind (if failed then _err message else ret tt) k) b <->
  failed = false /\ clean (k tt) b.
Proof.
  intros Hk. destruct failed.
  - split; [intros H; now apply clean_err_bind in H | intros [H _]; discriminate H].
  - split; [intros H; now split | intros [_ H]; exact H].
Qed.

Lemma milestone_body_clean pid milestone prev p :
  clean (milestone_body pid milestone prev) p <->
  milestone_accepted milestone = true
  /\ found (milestone_marker pid milestone) = Some p /\ prev < p.
Proof.
  destruct milestone as [| | | | | | fields];
    try (split; [intros H; discriminate H | intros [H _]; discriminate H]).
  unfold milestone_body, milestone_accepted, milestone_marker, milestone_ident,
    present, field, is_object, sequence. cbn [andb].
  rewrite bind_get, bind_clean by solve_appends.
  setoid_rewrite bind_get.
  setoid_rewrite check_milestone_marker_clean.
  split.
  - intros (a & [Hm Hlt] & H).
    destruct (lookup "tasks" fields) as [[| | | | | tasks |] |]; cbn [or_default] in H;
      try (now apply clean_err_bind in H; [| solve_appends]).
    apply clean_check_bind in H as [Hcount H]; [| solve_appends].
    apply bind_clean in H as (q & Hloop & H); [| solve_appends].
    rewrite bind_not_in in H. apply clean_check_bind in H as [Hunit H]; [| solve_appends].
    rewrite bind_not_in in H. apply clean_check_bind in H as [Hint H]; [| solve_appends].
    apply (proj1 (clean_ret a p)) in H. subst a.
    apply negb_false_iff in Hcount, Hunit, Hint. unfold has_key in Hunit, Hint.
    destruct (proj1 (tasks_loop_clean _ _ _) (ex_intro _ q Hloop)) as [Hall Habove].
    rewrite Hcount, Hall, Habove.
    destruct (lookup "unit_gate" fields); [| discriminate Hunit].
    destruct (lookup "integration_gate" fields); [| discriminate Hint].
    now repeat split.
  - intros (Hc & Hm & Hlt). exists p. split; [now split |].
    destruct (lookup "tasks" fields) as [[| | | | | tasks |] |]; try discriminate Hc.
    cbn [or_default].
    apply andb_prop in Hc as [Hc Hint]. apply andb_prop in Hc as [Hc Hunit].
    apply andb_prop in Hc as [Hc Habove]. apply andb_prop in Hc as [Hcount Hall].
    set (mid := or_default _ (lookup "milestone_id" fields)) in *.
    destruct (proj2 (tasks_loop_clean pid mid tasks) (conj Hall Habove)) as [q Hloop].
    apply clean_check_bind; [solve_appends |]. split; [now rewrite Hcount |].
    apply bind_clean; [solve_appends |]. exists q. split; [exact Hloop |].
    rewrite bind_not_in. apply clean_check_bind; [solve_appends |].
    split; [unfold has_key; now destruct (lookup "unit_gate" fields) |].
    rewrite bind_not_in. apply clean_check_bind; [solve_appends |].
    split; [unfold has_key; now destruct (lookup "integration_gate" fields) |].
    reflexivity.
Qed.
Lemma milestones_loop_clean pid milestones :
  (exists p, clean (for_loop (milestone_body pid) milestones 0) p) <->
  forallb milestone_accepted milestones = true
  /\ strictly_above 0
       (map (fun milestone => found (milestone_marker pid milestone)) milestones) = true.
Proof.
  apply for_loop_clean_markers.
  - intros. apply appends_milestone_body.
  - intros. apply milestone_body_clean.
Qed.

Lemma has_key_false key fields :
  negb (has_key key fields) = false <->
  match lookup key fields with Some _ => true | None => false end = true.
Proof. unfold has_key. destruct (lookup key fields); simpl; split; congruence. Qed.

Lemma phase_body_clean entry u :
  clean (phase_body entry u) tt <-> phase_accepted entry = true.
Proof.
  destruct entry as [phase_idx phase].
  destruct phase as [| | | | | | fields];
    try (split; intros H; discriminate H).
  unfold phase_body, phase_accepted, gates_conform, phase_ident, present, field, is_object, sequence.
  cbn [andb].
  rewrite bind_get, bind_get.
  set (pid := or_default _ (lookup "phase_id" fields)).
  split.
  - intros H.
    apply bind_clean in H as ([] & Hwaves & H); [| solve_appends].
    rewrite bind_get in H.
    destruct (lookup "waves" fields) as [[| | | | | waves |] |]; cbn [or_default] in Hwaves;
      try (now apply clean_err in Hwaves).
    apply clean_check in Hwaves. apply Z.ltb_ge in Hwaves. apply Z.leb_le in Hwaves.
    rewrite Hwaves.
    destruct (lookup "milestones" fields) as [[| | | | | milestones |] |]; cbn [or_default] in H;
      try (now apply clean_err in H).
    apply clean_check_bind in H as [Hcount H]; [| solve_appends].
    apply bind_clean in H as (q & Hloop & H); [| solve_appends].
    rewrite bind_get in H.
    destruct (proj1 (milestones_loop_clean pid milestones) (ex_intro _ q Hloop)) as [Hall Habove].
    apply negb_false_iff in Hcount. rewrite Hcount, Hall, Habove.
    destruct (or_default (JDict []) (lookup "phase_gates" fields)) as [| | | | | | gates];
      try (now apply clean_err in H).
    rewrite bind_not_in in H. apply clean_check_bind in H as [He2e H]; [| solve_appends].
    apply has_key_false in He2e. rewrite He2e. cbn [andb].
    destruct (Z.ltb_spec 1 phase_idx) as [Hidx | Hidx].
    + rewrite bind_not_in in H. apply clean_check_bind in H as [Hinter H]; [| solve_appends].
      rewrite bind_not_in in H. apply (proj1 (clean_check _ _)) in H.
      apply has_key_false in Hinter, H. rewrite Hinter, H. now rewrite orb_true_r.
    + apply Z.leb_le in Hidx. now rewrite Hidx.
  - intros H.
    apply andb_prop in H as [H Hgates]. apply andb_prop in H as [Hwaves H].
    apply bind_clean; [solve_appends |]. exists tt. split.
    + destruct (lookup "waves" fields) as [[| | | | | waves |] |]; try discriminate Hwaves.
      cbn [or_default]. apply clean_check. apply Z.ltb_ge. now apply Z.leb_le.
    + rewrite bind_get.
      destruct (lookup "milestones" fields) as [[| | | | | milestones |] |]; try discriminate H.
      cbn [or_default].
      apply andb_prop in H as [H Habove]. apply andb_prop in H as [Hcount Hall].
      destruct (proj2 (milestones_loop_clean pid milestones) (conj Hall Habove)) as [q Hloop].
      apply clean_check_bind; [solve_appends |]. split; [now rewrite Hcount |].
      apply bind_clean; [solve_appends |]. exists q. split; [exact Hloop |].
      rewrite bind_get.
      destruct (or_default (JDict []) (lookup "phase_gates" fields)) as [| | | | | | gates];
        try discriminate Hgates.
      cbn [andb] in Hgates. apply andb_prop in Hgates as [He2e Hrolling].
      rewrite bind_not_in. apply clean_check_bind; [solve_appends |].
      split; [now apply has_key_false |].
      destruct (Z.ltb_spec 1 phase_idx) as [Hidx | Hidx]; [| reflexivity].
      apply orb_prop in Hrolling as [Hfirst | Hrolling];
        [apply Z.leb_le in Hfirst; lia |].
      apply andb_prop in Hrolling as [Hinter Hcumulative].
      rewrite bind_not_in. apply clean_check_bind; [solve_appends |].
      split; [now apply has_key_false |].
      rewrite bind_not_in. apply clean_check. now apply has_key_false.
Qed.

Lemma phases_loop_clean entries :
  clean (for_loop phase_body entries tt) tt <-> forallb phase_accepted entries = true.
Proof.
  induction entries as [| entry rest IH]; simpl.
  - split; reflexivity.
  - rewrite bind_clean by solve_appends. rewrite andb_true_iff, <- IH. split.
    + intros ([] & H1 & H2). split; [now apply phase_body_clean in H1 | exact H2].
    + intros [H1 H2]. exists tt. split; [now apply phase_body_clean | exact H2].
Qed.

Lemma validate_clean plan : validate plan = Ret [] <-> accepted plan = true.
Proof.
  assert (Hrun : validate plan = Ret [] <-> clean (validate_from plan) tt).
  { unfold validate, clean. destruct (validate_from plan []) as [[[] errors] | e]; split; intros H;
      first [discriminate H | now inversion H]. }
  rewrite Hrun. clear Hrun.
  destruct plan as [| | | | | | fields]; try (split; intros H; discriminate H).
  unfold validate_from, accepted, field, sequence. rewrite bind_get.
  destruct (lookup "phases" fields) as [[| | | | | phases |] |]; cbn [or_default];
    try (split; intros H; [now apply clean_err in H | discriminate H]).
  rewrite clean_check_bind by solve_appends.
  rewrite andb_true_iff, phases_loop_clean, Z.ltb_ge, Z.leb_le.
  reflexivity.
Qed.
(** ** The conversion and its limit *)

Lemma py_int_short (ds : list ascii) :
  len ds <= INT_MAX_STR_DIGITS -> py_int ds = Ret (int_of_digits ds).
Proof. intros H. unfold py_int. destruct (Z.ltb_spec INT_MAX_STR_DIGITS (len ds)); [lia | reflexivity]. Qed.

Lemma py_int_long (ds : list ascii) :
  INT_MAX_STR_DIGITS < len ds -> py_int ds = Raise ValueError.
Proof. intros H. unfold py_int. destruct (Z.ltb_spec INT_MAX_STR_DIGITS (len ds)); [reflexivity | lia]. Qed.

Lemma extract_index_short (letter value : string) :
  short letter value = true -> _extract_index value letter = Ret (index letter value).
Proof.
  unfold short, _extract_index, index. destruct (search letter value) as [ds |]; [| reflexivity].
  intros H. apply Z.leb_le in H. now rewrite (py_int_short ds H).
Qed.

Lemma extract_index_long (letter value : string) :
  short letter value = false -> _extract_index value letter = Raise ValueError.
Proof.
  unfold short, _extract_index. destruct (search letter value) as [ds |]; [| discriminate].
  intros H. apply Z.leb_gt in H. now rewrite (py_int_long ds H).
Qed.

Lemma extract_index_ret (letter value : string) (o : option Z) :
  _extract_index value letter = Ret o -> short letter value = true /\ o = index letter value.
Proof.
  intros H. destruct (short letter value) eqn:Hs.
  - rewrite (extract_index_short _ _ Hs) in H. inversion H. now split.
  - rewrite (extract_index_long _ _ Hs) in H. discriminate H.
Qed.

Lemma extract_index_raise (letter value : string) (e : exn) :
  _extract_index value letter = Raise e -> short letter value = false /\ e = ValueError.
Proof.
  intros H. destruct (short letter value) eqn:Hs.
  - rewrite (extract_index_short _ _ Hs) in H. discriminate H.
  - rewrite (extract_index_long _ _ Hs) in H. inversion H. now split.
Qed.

Lemma found_index (letter value : string) (i : Z) :
  found (_extract_index value letter) = Some i <->
  short letter value = true /\ index letter value = Some i.
Proof.
  destruct (short letter value) eqn:Hs.
  - rewrite (extract_index_short _ _ Hs). unfold found.
    destruct (index letter value); split; intros H; try discriminate H;
      first [now split | now destruct H as [_ H]].
  - rewrite (extract_index_long _ _ Hs). cbn [found].
    split; [discriminate | intros [H _]; discriminate H].
Qed.

(** ** What the validator accepts and the contract *)

Import Shape.

Lemma strictly_above_agree {A : Type} (f g : A -> option Z) (l : list A) (prev : Z) :
  (forall x i, In x l -> f x = Some i -> g x = Some i) ->
  strictly_above prev (map f l) = true -> strictly_above prev (map g l) = true.
Proof.
  revert prev. induction l as [| x rest IH]; intros prev Hfg H; [reflexivity |].
  cbn [map strictly_above] in *. destruct (f x) as [i |] eqn:Hfx; [| discriminate H].
  rewrite (Hfg x i (or_introl eq_refl) Hfx). apply andb_prop in H as [Hlt H].
  rewrite Hlt. apply IH; [| exact H]. intros y j Hy. apply Hfg. now right.
Qed.

Lemma task_found_id (task : json) (i : Z) :
  task_string_id task = true ->
  found (task_marker task) = Some i -> id_marker "task_id" "T" task = Some i.
Proof.
  unfold task_string_id, task_marker, task_ident, id_marker.
  destruct (field "task_id" task) as [[| | | | s | |] |]; try discriminate.
  intros _ H. now apply found_index in H.
Qed.

Lemma task_id_found (task : json) (i : Z) :
  task_within task = true ->
  id_marker "task_id" "T" task = Some i -> found (task_marker task) = Some i.
Proof.
  unfold task_within, task_marker, task_ident, id_marker.
  destruct (field "task_id" task) as [[| | | | s | |] |]; try discriminate.
  cbn [or_default PyStr.str]. intros Hs H. now apply found_index.
Qed.

Lemma milestone_found_id (pid milestone : json) (i : Z) :
  milestone_string_ids milestone = true ->
  found (milestone_marker pid milestone) = Some i ->
  id_marker "milestone_id" "M" milestone = Some i.
Proof.
  unfold milestone_string_ids, milestone_marker, milestone_ident, id_marker.
  destruct (field "milestone_id" milestone) as [[| | | | s | |] |]; try discriminate.
  cbn [or_default PyStr.str]. intros _ H. now apply found_index in H.
Qed.

Lemma milestone_id_found (pid milestone : json) (i : Z) :
  milestone_within pid milestone = true ->
  id_marker "milestone_id" "M" milestone = Some i ->
  found (milestone_marker pid milestone) = Some i.
Proof.
  unfold milestone_within, milestone_marker, milestone_ident, id_marker.
  destruct (field "milestone_id" milestone) as [[| | | | s | |] |]; try discriminate.
  cbn [or_default PyStr.str]. intros Hs H. apply andb_prop in Hs as [Hs _].
  now apply found_index.
Qed.

Lemma milestone_accepted_conforms (milestone : json) :
  milestone_string_ids milestone = true ->
  milestone_accepted milestone = true -> milestone_conforms milestone = true.
Proof.
  unfold milestone_string_ids, milestone_accepted, milestone_conforms. intros Hids H.
  apply andb_prop in Hids as [_ Hids].
  destruct (is_object milestone); [| discriminate H]. cbn [andb] in *.
  destruct (sequence (field "tasks" milestone)) as [tasks |]; [| discriminate H].
  apply andb_prop in H as [H Hint]. apply andb_prop in H as [H Hunit].
  apply andb_prop in H as [H Habove].
  change (forallb task_accepted tasks) with (forallb task_conforms tasks) in H.
  rewrite H, Hunit, Hint. cbn [andb].
  rewrite !andb_true_r. apply (strictly_above_agree _ _ _ _) with (2 := Habove).
  intros task i Hin. apply task_found_id. rewrite forallb_forall in Hids. now apply Hids.
Qed.

Lemma milestone_conforms_accepted (pid milestone : json) :
  milestone_within pid milestone = true ->
  milestone_conforms milestone = true -> milestone_accepted milestone = true.
Proof.
  unfold milestone_within, milestone_accepted, milestone_conforms. intros Hw H.
  apply andb_prop in Hw as [_ Hw].
  destruct (is_object milestone); [| discriminate H]. cbn [andb] in *.
  destruct (sequence (field "tasks" milestone)) as [tasks |]; [| discriminate H].
  apply andb_prop in H as [H Hint]. apply andb_prop in H as [H Hunit].
  apply andb_prop in H as [H Habove].
  change (forallb task_accepted tasks) with (forallb task_conforms tasks).
  rewrite H, Hunit, Hint. cbn [andb].
  rewrite !andb_true_r. apply (strictly_above_agree _ _ _ _) with (2 := Habove).
  intros task i Hin. apply task_id_found. rewrite forallb_forall in Hw. now apply Hw.
Qed.

Lemma forallb_impl {A : Type} (f g : A -> bool) (l : list A) :
  (forall x, In x l -> f x = true -> g x = true) ->
  forallb f l = true -> forallb g l = true.
Proof.
  intros Hfg H. rewrite forallb_forall in *. intros x Hx. apply Hfg; [exact Hx | now apply H].
Qed.

Lemma phase_accepted_conforms (entry : Z * json) :
  phase_string_ids (snd entry) = true ->
  phase_accepted entry = true -> phase_conforms entry = true.
Proof.
  destruct entry as [phase_idx phase]. cbn [snd].
  unfold phase_string_ids, phase_accepted, phase_conforms. intros Hids H.
  destruct (is_object phase); [| discriminate H]. cbn [andb] in *.
  apply andb_prop in H as [H Hgates]. apply andb_prop in H as [Hwaves H].
  rewrite Hwaves, Hgates. cbn [andb]. rewrite andb_true_r.
  destruct (sequence (field "milestones" phase)) as [milestones |]; [| discriminate H].
  apply andb_prop in H as [H Habove]. apply andb_prop in H as [Hcount Hall].
  rewrite Hcount. cbn [andb]. apply andb_true_intro. split.
  - apply (forallb_impl milestone_accepted); [| exact Hall].
    intros m Hm. apply milestone_accepted_conforms. rewrite forallb_forall in Hids.
    now apply Hids.
  - apply (strictly_above_agree _ _ _ _) with (2 := Habove).
    intros m i Hm. apply milestone_found_id. rewrite forallb_forall in Hids. now apply Hids.
Qed.

Lemma phase_conforms_accepted (entry : Z * json) :
  phase_within entry = true ->
  phase_conforms entry = true -> phase_accepted entry = true.
Proof.
  destruct entry as [phase_idx phase].
  unfold phase_within, phase_accepted, phase_conforms. intros Hw H.
  destruct (is_object phase); [| discriminate H]. cbn [andb] in *.
  apply andb_prop in H as [H Hgates]. apply andb_prop in H as [Hwaves H].
  rewrite Hwaves, Hgates. cbn [andb]. rewrite andb_true_r.
  destruct (sequence (field "milestones" phase)) as [milestones |]; [| discriminate H].
  apply andb_prop in H as [H Habove]. apply andb_prop in H as [Hcount Hall].
  rewrite Hcount. cbn [andb]. apply andb_true_intro. split.
  - apply (forallb_impl milestone_conforms); [| exact Hall].
    intros m Hm. apply (milestone_conforms_accepted (phase_ident phase_idx phase)).
    rewrite forallb_forall in Hw. now apply Hw.
  - apply (strictly_above_agree _ _ _ _) with (2 := Habove).
    intros m i Hm. apply milestone_id_found. rewrite forallb_forall in Hw. now apply Hw.
Qed.

Lemma forallb_enumerate {A : Type} (ok : A -> bool) (xs : list A) (start : Z) :
  forallb (fun entry => ok (snd entry)) (enumerate start xs) = forallb ok xs.
Proof.
  revert start. induction xs as [| x rest IH]; intros start; [reflexivity |].
  cbn [enumerate forallb snd]. now rewrite IH.
Qed.

Lemma phases_accepted_conform (phases : list json) (start : Z) :
  forallb phase_string_ids phases = true ->
  forallb phase_accepted (enumerate start phases) = true ->
  forallb phase_conforms (enumerate start phases) = true.
Proof.
  intros Hids. rewrite <- (forallb_enumerate phase_string_ids phases start) in Hids.
  rewrite !forallb_forall in *. intros Hacc entry Hin.
  apply phase_accepted_conforms; [now apply Hids | now apply Hacc].
Qed.

Lemma phases_conform_accepted (entries : list (Z * json)) :
  forallb phase_within entries = true ->
  forallb phase_conforms entries = true -> forallb phase_accepted entries = true.
Proof.
  rewrite !forallb_forall. intros Hw Hc entry Hin.
  apply phase_conforms_accepted; [now apply Hw | now apply Hc].
Qed.

Lemma accepted_conforms (plan : json) :
  string_ids plan = true -> accepted plan = true -> conforms plan = true.
Proof.
  unfold string_ids, accepted, conforms, phases_conform.
  destruct (sequence (field "phases" plan)) as [phases |]; [| discriminate].
  intros Hids H. apply andb_prop in H as [Hcount H]. rewrite Hcount. cbn [andb].
  now apply phases_accepted_conform.
Qed.

Lemma conforms_accepted (plan : json) :
  within plan = true -> conforms plan = true -> accepted plan = true.
Proof.
  unfold within, accepted, conforms, phases_conform.
  destruct (sequence (field "phases" plan)) as [phases |]; [| discriminate].
  intros Hw H. apply andb_prop in H as [Hcount H]. rewrite Hcount. cbn [andb].
  now apply phases_conform_accepted.
Qed.

(** ** Regular documents satisfy the contract *)

Import Regular.

Lemma all_present_map (l : list (option Z)) (zs : list Z) :
  all_present l = Some zs -> l = map Some zs.
Proof.
  revert zs. induction l as [| [i |] rest IH]; intros zs H; simpl in H.
  - now inversion H.
  - destruct (all_present rest) as [zs' |]; [| discriminate H].
    inversion H. simpl. now rewrite (IH zs').
  - discriminate H.
Qed.

Lemma increasing_strictly_above (zs : list Z) (prev : Z) :
  increasing zs = true ->
  match zs with i :: _ => prev < i | [] => True end ->
  strictly_above prev (map Some zs) = true.
Proof.
  revert prev. induction zs as [| i rest IH]; intros prev Hinc Hhead; [reflexivity |].
  cbn [map strictly_above]. apply andb_true_intro. split; [now apply Z.ltb_lt |].
  destruct rest as [| j rest']; [reflexivity |].
  cbn [increasing] in Hinc. apply andb_prop in Hinc as [Hij Hinc].
  apply IH; [exact Hinc | now apply Z.ltb_lt].
Qed.

Lemma markers_in_order_above (l : list (option Z)) :
  markers_in_order true l = true -> strictly_above 0 l = true.
Proof.
  unfold markers_in_order. destruct (all_present l) as [zs |] eqn:Hzs; [| discriminate].
  intros H. apply andb_prop in H as [Hinc Hone]. cbn [negb orb] in Hone.
  rewrite (all_present_map l zs Hzs). apply increasing_strictly_above; [exact Hinc |].
  destruct zs; [exact I | apply Z.leb_le in Hone; lia].
Qed.

(** Two readings of the markers agree on a list where the first finds
    every marker. *)
Lemma markers_agree {A : Type} (f g : A -> option Z) (l : list A) :
  (forall x i, f x = Some i -> g x = Some i) ->
  forall zs, all_present (map f l) = Some zs -> map g l = map f l.
Proof.
  intros Hfg. induction l as [| x rest IH]; intros zs H; [reflexivity |].
  cbn [map all_present] in *. destruct (f x) as [i |] eqn:Hfx; [| discriminate H].
  destruct (all_present (map f rest)) as [zs' |]; [| discriminate H].
  now rewrite (Hfg x i Hfx), (IH zs').
Qed.

Lemma marker_in_id (key letter : string) (v : json) (i : Z) :
  marker_in key letter v = Some i -> id_marker key letter v = Some i.
Proof. trivial. Qed.

Lemma markers_in_order_agree {A : Type} (f g : A -> option Z) (l : list A) :
  (forall x i, f x = Some i -> g x = Some i) ->
  markers_in_order true (map f l) = true -> strictly_above 0 (map g l) = true.
Proof.
  intros Hfg H. pose proof (markers_in_order_above _ H) as Habove.
  unfold markers_in_order in H. destruct (all_present (map f l)) as [zs |] eqn:Hzs; [| discriminate H].
  now rewrite (markers_agree f g l Hfg zs Hzs).
Qed.

Lemma present_object (key : string) (v : json) : present key v = true -> is_object v = true.
Proof. destruct v; try discriminate. reflexivity. Qed.

Lemma length_len {A : Type} (l : list A) (n : nat) :
  (length l =? n)%nat = true -> len l = Z.of_nat n.
Proof. intros H. apply Nat.eqb_eq in H. unfold len. now rewrite H. Qed.

Lemma regular_milestone_conforms (milestone : json) :
  regular_milestone true milestone = true -> milestone_conforms milestone = true.
Proof.
  unfold regular_milestone, milestone_conforms. intros H.
  apply andb_prop in H as [H Hint]. apply andb_prop in H as [H Hunit].
  rewrite Hint, Hunit, (present_object _ _ Hunit).
  destruct (sequence (field "tasks" milestone)) as [tasks |]; [| discriminate H].
  apply andb_prop in H as [H Hdone]. apply andb_prop in H as [Hcount Horder].
  rewrite (length_len _ _ Hcount).
  rewrite (markers_in_order_agree _ (id_marker "task_id" "T") tasks (marker_in_id _ _) Horder).
  replace (forallb task_conforms tasks) with true; [reflexivity |].
  symmetry. apply forallb_forall. intros task Hin.
  unfold task_conforms. rewrite forallb_forall in Hdone.
  now rewrite (Hdone task Hin), (present_object _ _ (Hdone task Hin)).
Qed.

Lemma regular_phase_conforms (first : bool) (phase_idx : Z) (phase : json) :
  (first = true -> phase_idx = 1) ->
  regular_phase true first phase = true -> phase_conforms (phase_idx, phase) = true.
Proof.
  unfold regular_phase, phase_conforms. intros Hfirst H.
  apply andb_prop in H as [H Hgates]. apply andb_prop in H as [Hwaves H].
  assert (Hobj : is_object phase = true).
  { destruct phase; try discriminate Hwaves. reflexivity. }
  rewrite Hobj. cbn [andb].
  destruct (sequence (field "waves" phase)) as [waves |]; [| discriminate Hwaves].
  rewrite (length_len _ _ Hwaves). cbn [andb].
  destruct (sequence (field "milestones" phase)) as [milestones |]; [| discriminate H].
  apply andb_prop in H as [H Hall]. apply andb_prop in H as [Hcount Horder].
  rewrite (length_len _ _ Hcount).
  rewrite (markers_in_order_agree _ (id_marker "milestone_id" "M") milestones
             (marker_in_id _ _) Horder).
  replace (forallb milestone_conforms milestones) with true.
  2:{ symmetry. apply forallb_forall. intros m Hin. rewrite forallb_forall in Hall.
      now apply regular_milestone_conforms, Hall. }
  cbn [andb Z.eqb Z.of_nat Pos.of_succ_nat Pos.succ Pos.eqb MILESTONE_EXACT].
  unfold regular_gates in Hgates. unfold gates_conform, present, field.
  destruct (field "phase_gates" phase) as [[| | | | | | gates] |] eqn:Hg; try discriminate Hgates.
  destruct phase; try discriminate Hobj. cbn [field] in Hg. rewrite Hg. cbn [or_default is_object andb].
  unfold has_key in Hgates.
  destruct (lookup "phase_end_e2e" gates); [| discriminate Hgates]. cbn [andb] in *.
  destruct first.
  - rewrite (Hfirst eq_refl). reflexivity.
  - cbn [orb] in Hgates.
    destruct (lookup "rolling_inter_phase_integration" gates); [| discriminate Hgates].
    destruct (lookup "rolling_cumulative_e2e" gates); [| discriminate Hgates].
    now rewrite orb_true_r.
Qed.

Lemma regular_phases_conform (phases : list json) (start : Z) :
  forallb (regular_phase true false) phases = true ->
  forallb phase_conforms (enumerate start phases) = true.
Proof.
  revert start. induction phases as [| phase rest IH]; intros start H; [reflexivity |].
  cbn [forallb enumerate] in *. apply andb_prop in H as [H Hrest].
  rewrite (regular_phase_conforms false start phase); [now apply IH | discriminate | exact H].
Qed.

Lemma regular_conforms (plan : json) :
  regular true plan = true -> conforms plan = true.
Proof.
  unfold regular, conforms.
  destruct (sequence (field "phases" plan)) as [[| first others] |]; try discriminate.
  intros H. apply andb_prop in H as [H Hothers]. apply andb_prop in H as [Hcount Hfirst].
  unfold phases_conform. cbn [enumerate forallb].
  rewrite (regular_phase_conforms true 1 first (fun _ => eq_refl) Hfirst).
  rewrite (regular_phases_conform others _ Hothers).
  apply Nat.eqb_eq in Hcount. unfold len. cbn [length]. rewrite Hcount. reflexivity.
Qed.

(** ** Exact runs *)

Lemma validate_run (plan : json) (errors : list string) :
  validate_from plan errors =
  match validate plan with
  | Ret written => Ret (tt, (errors ++ written)%list)
  | Raise e => Raise e
  end.
Proof.
  rewrite (appends_validate_from plan errors). unfold validate.
  destruct (validate_from plan []) as [[[] written] | e]; reflexivity.
Qed.


Lemma check_milestone_marker_run pid mid prev errors :
  check_milestone_marker pid mid prev errors =
  match _extract_index (PyStr.str mid) "M" with
  | Ret marker =>
      Ret (advance prev marker, List.app errors (milestone_marker_report pid mid prev marker))
  | Raise e => Raise e
  end.
Proof.
  unfold check_milestone_marker, milestone_marker_report, advance, bind at 1, lift.
  destruct (_extract_index (PyStr.str mid) "M") as [[i |] | e]; [| reflexivity | reflexivity].
  destruct (Z.leb_spec i prev) as [Hle | Hgt], (Z.ltb_spec prev i) as [Hlt | Hge];
    try lia; cbn [when_]; [reflexivity |].
  unfold ret. now rewrite app_nil_r.
Qed.

Lemma check_task_marker_run pid mid tid prev errors :
  check_task_marker pid mid tid prev errors =
  match _extract_index tid "T" with
  | Ret marker =>
      Ret (advance prev marker,
           List.app errors
             match marker with
             | None => [fmt pid ++ ": " ++ fmt mid ++ ": task missing sequence marker: " ++ tid]
             | Some i =>
                 when_ (i <=? prev)
                   (fmt pid ++ ": " ++ fmt mid ++ ": task sequence is not strict")
             end)
  | Raise e => Raise e
  end.
Proof.
  unfold check_task_marker, advance, bind at 1, lift.
  destruct (_extract_index tid "T") as [[i |] | e]; [| reflexivity | reflexivity].
  destruct (Z.leb_spec i prev) as [Hle | Hgt], (Z.ltb_spec prev i) as [Hlt | Hge];
    try lia; cbn [when_]; [reflexivity |].
  unfold ret. now rewrite app_nil_r.
Qed.

Lemma task_body_run pid mid fields prev errors :
  task_body pid mid (JDict fields) prev errors =
  match task_marker (JDict fields) with
  | Ret marker =>
      Ret (advance prev marker, List.app errors (task_report pid mid fields prev marker))
  | Raise e => Raise e
  end.
Proof.
  unfold task_body, task_report, task_marker, task_ident, field.
  rewrite bind_get. unfold bind at 1. rewrite check_task_marker_run.
  destruct (_extract_index _ "T") as [marker | e]; [| reflexivity].
  rewrite bind_not_in. rewrite app_assoc.
  destruct (negb (has_key "done_criteria" fields)); cbn [when_].
  - reflexivity.
  - unfold bind, ret. now rewrite app_nil_r.
Qed.

(** Whatever a milestone writes, the index it leaves is the one its
    marker check left. *)
Lemma milestone_body_value pid milestone prev errors prev' errors' :
  milestone_body pid milestone prev errors = Ret (prev', errors') ->
  prev' = advance prev (milestone_index pid milestone).
Proof.
  destruct milestone as [| | | | | | fields]; try discriminate.
  unfold milestone_body, milestone_index, milestone_ident, field.
  rewrite bind_get. unfold bind at 1. rewrite check_milestone_marker_run.
  destruct (_extract_index _ "M") as [marker | e] eqn:Hmarker; [| discriminate].
  apply extract_index_ret in Hmarker as [_ ->].
  rewrite bind_get.
  destruct (or_default JNull (lookup "tasks" fields)) as [| | | | | tasks |];
    try (intros H; now inversion H).
  unfold bind, ret, py_not_in.
  repeat match goal with
         | |- context [match ?c ?e with _ => _ end] =>
             match type of (c e) with
             | outcome _ => destruct (c e) as [[? ?] | ?]; try discriminate
             end
         end.
  intros H. now inversion H.
Qed.

Lemma milestones_loop_value pid milestones prev errors prev' errors' :
  for_loop (milestone_body pid) milestones prev errors = Ret (prev', errors') ->
  prev' = fold_left advance (map (milestone_index pid) milestones) prev.
Proof.
  revert prev errors. induction milestones as [| m rest IH]; intros prev errors H.
  - now inversion H.
  - cbn [for_loop] in H. unfold bind in H.
    destruct (milestone_body pid m prev errors) as [[p1 e1] |] eqn:Hm; [| discriminate H].
    apply milestone_body_value in Hm. subst p1. cbn [map fold_left]. now apply (IH _ e1).
Qed.

(** ** Markers and the stand-in identifier *)

Lemma leading_digits_stand_in (s : string) :
  leading_digits (s ++ ":milestone") = leading_digits s.
Proof.
  induction s as [| c rest IH]; [reflexivity |].
  cbn [append leading_digits]. now rewrite IH.
Qed.

Lemma match_here_stand_in (s : string) :
  match_here "M" (s ++ ":milestone") = match_here "M" s.
Proof.
  destruct s as [| c rest]; [reflexivity |].
  unfold match_here. cbn [append strip_prefix].
  destruct (Ascii.eqb "M" c); [| reflexivity].
  now rewrite leading_digits_stand_in.
Qed.

Lemma search_stand_in (s : string) :
  search "M" (s ++ ":milestone") = search "M" s.
Proof.
  induction s as [| c rest IH]; [reflexivity |].
  cbn [search]. rewrite <- IH.
  change (String c rest ++ ":milestone") with (String c (rest ++ ":milestone")).
  cbn [search].
  change (String c (rest ++ ":milestone")) with (String c rest ++ ":milestone").
  now rewrite match_here_stand_in.
Qed.

(** The suffix of the stand-in identifier brings no marker of its own
    and cuts none short. *)
Lemma extract_index_stand_in (s : string) :
  _extract_index (s ++ ":milestone") "M" = _extract_index s "M".
Proof. unfold _extract_index. now rewrite search_stand_in. Qed.

Lemma check_run (failed : bool) (message : string) (errors : list string) :
  (if failed then _err message else ret tt) errors =
  Ret (tt, List.app errors (when_ failed message)).
Proof. destruct failed; unfold _err, ret, when_; [reflexivity | now rewrite app_nil_r]. Qed.

(** A milestone whose [tasks] is a sequence: the marker, the count, the
    tasks from a running index of 0, then the two gates. *)
Lemma milestone_body_run pid fields tasks prev errors :
  lookup "tasks" fields = Some (JList tasks) ->
  let mid := milestone_ident pid (JDict fields) in
  milestone_body pid (JDict fields) prev errors =
  match milestone_marker pid (JDict fields) with
  | Ret marker =>
      match
        for_loop (task_body pid mid) tasks 0
          (List.app errors
             (List.app (milestone_marker_report pid mid prev marker)
                (when_ (negb (len tasks =? TASK_EXACT))
                   (fmt pid ++ ": " ++ fmt mid ++ ": task_count=" ++ str_int (len tasks)
                      ++ " != " ++ str_int TASK_EXACT))))
      with
      | Ret (_, errors') =>
          Ret (advance prev marker,
               List.app errors'
                 (List.app
                    (when_ (negb (has_key "unit_gate" fields))
                       (fmt pid ++ ": " ++ fmt mid ++ ": missing unit_gate"))
                    (when_ (negb (has_key "integration_gate" fields))
                       (fmt pid ++ ": " ++ fmt mid ++ ": missing integration_gate"))))
      | Raise e => Raise e
      end
  | Raise e => Raise e
  end.
Proof.
  intros Htasks. cbv zeta. unfold milestone_body. rewrite bind_get. unfold bind at 1.
  unfold milestone_marker, milestone_ident, field.
  set (mid := or_default (JStr _) (lookup "milestone_id" fields)).
  rewrite check_milestone_marker_run.
  destruct (_extract_index (PyStr.str mid) "M") as [marker | e]; [| reflexivity].
  rewrite bind_get, Htasks. cbn [or_default].
  unfold bind at 1. rewrite check_run. unfold bind at 1. rewrite <- app_assoc.
  destruct (for_loop (task_body pid mid) tasks 0 _) as [[q errors'] |]; [| reflexivity].
  rewrite bind_not_in. unfold bind at 1. rewrite check_run.
  rewrite bind_not_in. unfold bind at 1. rewrite check_run.
  unfold ret. now rewrite <- app_assoc.
Qed.

(** A milestone whose [tasks] is not a sequence: the marker, then one
    message, and the rest of the iteration is skipped (lines 76-79). *)
Lemma milestone_body_no_tasks pid fields prev errors :
  sequence (lookup "tasks" fields) = None ->
  let mid := milestone_ident pid (JDict fields) in
  milestone_body pid (JDict fields) prev errors =
  match milestone_marker pid (JDict fields) with
  | Ret marker =>
      Ret (advance prev marker,
           List.app errors
             (List.app (milestone_marker_report pid mid prev marker)
                [fmt pid ++ ": " ++ fmt mid ++ ": missing tasks[]"]))
  | Raise e => Raise e
  end.
Proof.
  intros Htasks. cbv zeta. unfold milestone_body. rewrite bind_get. unfold bind at 1.
  unfold milestone_marker, milestone_ident, field.
  set (mid := or_default (JStr _) (lookup "milestone_id" fields)).
  rewrite check_milestone_marker_run.
  destruct (_extract_index (PyStr.str mid) "M") as [marker | e]; [| reflexivity].
  rewrite bind_get.
  destruct (lookup "tasks" fields) as [[| | | | | tasks |] |]; try discriminate Htasks;
    cbn [or_default]; unfold bind, _err, ret; now rewrite <- app_assoc.
Qed.

Lemma waves_run pid fields errors :
  match or_default JNull (lookup "waves" fields) with
  | JList waves =>
      if len waves <? WAVE_MIN then
        _err (fmt pid ++ ": wave_count=" ++ str_int (len waves) ++ " < " ++ str_int WAVE_MIN)
      else ret tt
  | _ => _err (fmt pid ++ ": missing waves[]")
  end errors = Ret (tt, List.app errors (waves_report pid fields)).
Proof.
  unfold waves_report.
  destruct (lookup "waves" fields) as [[| | | | | waves |] |]; cbn [or_default];
    first [apply check_run | reflexivity].
Qed.

(** A phase whose [milestones] is a sequence: the head checks, the
    milestones from a running index of 0, then the gates. *)
Lemma phase_body_milestones phase_idx fields milestones errors :
  lookup "milestones" fields = Some (JList milestones) ->
  let pid := phase_ident phase_idx (JDict fields) in
  phase_body (phase_idx, JDict fields) tt errors =
  match
    for_loop (milestone_body pid) milestones 0
      (List.app errors (phase_head_report pid fields milestones))
  with
  | Ret (_, errors') =>
      Ret (tt, List.app errors'
                 (phase_gates_report pid phase_idx
                    (or_default (JDict []) (lookup "phase_gates" fields))))
  | Raise e => Raise e
  end.
Proof.
  intros Hms. cbv zeta. unfold phase_body. rewrite bind_get.
  unfold phase_ident, field.
  set (pid := or_default (JStr _) (lookup "phase_id" fields)).
  rewrite bind_get. unfold bind at 1.
  rewrite waves_run. rewrite bind_get, Hms. cbn [or_default].
  unfold bind at 1. rewrite check_run. unfold bind at 1.
  unfold phase_head_report. rewrite <- app_assoc.
  destruct (for_loop (milestone_body pid) milestones 0 _) as [[q errors'] |]; [| reflexivity].
  rewrite bind_get.
  destruct (or_default (JDict []) (lookup "phase_gates" fields)) as [| | | | | | gates];
    try reflexivity.
  rewrite bind_not_in. unfold bind at 1. rewrite check_run.
  unfold phase_gates_report, gate_report.
  destruct (1 <? phase_idx).
  - rewrite bind_not_in. unfold bind at 1. rewrite check_run.
    rewrite bind_not_in. rewrite check_run. now rewrite <- !app_assoc.
  - unfold ret. now rewrite app_nil_r.
Qed.

(** The same when the gates are an object. *)
Lemma phase_body_run phase_idx fields milestones gates errors :
  lookup "milestones" fields = Some (JList milestones) ->
  or_default (JDict []) (lookup "phase_gates" fields) = JDict gates ->
  let pid := phase_ident phase_idx (JDict fields) in
  phase_body (phase_idx, JDict fields) tt errors =
  match
    for_loop (milestone_body pid) milestones 0
      (List.app errors (phase_head_report pid fields milestones))
  with
  | Ret (_, errors') => Ret (tt, List.app errors' (gate_report pid phase_idx gates))
  | Raise e => Raise e
  end.
Proof.
  intros Hms Hgates. cbv zeta.
  rewrite (phase_body_milestones phase_idx fields milestones errors Hms). cbv zeta.
  now rewrite Hgates.
Qed.

(** A phase whose [milestones] is not a sequence: the check on [waves],
    then one message, and the rest of the iteration is skipped (lines
    54-56). *)
Lemma phase_body_no_milestones phase_idx fields errors :
  sequence (lookup "milestones" fields) = None ->
  let pid := phase_ident phase_idx (JDict fields) in
  phase_body (phase_idx, JDict fields) tt errors =
  Ret (tt, List.app errors
             (List.app (waves_report pid fields) [fmt pid ++ ": missing milestones[]"])).
Proof.
  intros Hms. cbv zeta. unfold phase_body. rewrite bind_get.
  unfold phase_ident, field.
  set (pid := or_default (JStr _) (lookup "phase_id" fields)).
  rewrite bind_get. unfold bind at 1.
  rewrite waves_run. rewrite bind_get.
  destruct (lookup "milestones" fields) as [[| | | | | milestones |] |];
    try discriminate Hms; cbn [or_default]; unfold _err; now rewrite <- app_assoc.
Qed.


(** ** When the validator returns *)

Lemma returns_bind {A B : Type} (c : M A) (k : A -> M B) (errors : list string) :
  returns (bind c k) errors <->
  exists a errors', c errors = Ret (a, errors') /\ returns (k a) errors'.
Proof.
  unfold returns, bind. destruct (c errors) as [[a errors'] | e]; split.
  - intros [r H]. exists a, errors'. split; [reflexivity | now exists r].
  - intros (a' & e' & H & r & Hr). inversion H; subst. now exists r.
  - intros [r H]. discriminate H.
  - intros (a' & e' & H & _). discriminate H.
Qed.

Lemma returns_check_bind {B : Type} (failed : bool) (message : string) (k : unit -> M B)
    (errors : list string) :
  returns (bind (if failed then _err message else ret tt) k) errors <->
  returns (k tt) (List.app errors (when_ failed message)).
Proof.
  unfold returns, bind. rewrite check_run. reflexivity.
Qed.

Lemma returns_check (failed : bool) (message : string) (errors : list string) :
  returns (if failed then _err message else ret tt) errors.
Proof. unfold returns. rewrite check_run. eauto. Qed.

Lemma for_loop_returns {A S : Type} (body : A -> S -> M S) (ok : A -> bool) :
  (forall x s errors, returns (body x s) errors <-> ok x = true) ->
  forall xs s errors, returns (for_loop body xs s) errors <-> forallb ok xs = true.
Proof.
  intros Hbody. induction xs as [| x rest IH]; intros s errors; cbn [for_loop forallb].
  - split; [reflexivity | intros _; now exists (s, errors)].
  - rewrite returns_bind, andb_true_iff. split.
    + intros (s1 & e1 & H1 & H2). split; [apply (Hbody x s errors); eexists; exact H1 |].
      now apply (IH s1 e1).
    + intros [Hx Hrest]. destruct (proj2 (Hbody x s errors) Hx) as [[s1 e1] H1].
      exists s1, e1. split; [exact H1 | now apply IH].
Qed.

Lemma forallb_andb {A : Type} (f g : A -> bool) (l : list A) :
  forallb (fun x => f x && g x) l = forallb f l && forallb g l.
Proof.
  induction l as [| x rest IH]; [reflexivity |]. cbn [forallb]. rewrite IH.
  destruct (f x), (g x), (forallb f rest); reflexivity.
Qed.

Lemma sequence_some (o : option json) (items : list json) :
  sequence o = Some items -> o = Some (JList items).
Proof. destruct o as [[| | | | | l |] |]; try discriminate. intros H. now inversion H. Qed.

Lemma returns_ret {A : Type} (o : outcome A) :
  (exists a, o = Ret a) <-> match o with Ret _ => True | Raise _ => False end.
Proof.
  destruct o as [a | e]; split; [trivial | intros _; now exists a | | intros []].
  intros [a H]. discriminate H.
Qed.

Lemma short_returns (letter value : string) :
  short letter value = true <->
  match _extract_index value letter with Ret _ => True | Raise _ => False end.
Proof.
  destruct (short letter value) eqn:Hs.
  - now rewrite (extract_index_short _ _ Hs).
  - rewrite (extract_index_long _ _ Hs). split; [discriminate | intros []].
Qed.

Lemma task_body_returns pid mid task prev errors :
  returns (task_body pid mid task prev) errors <->
  is_object task && task_within task = true.
Proof.
  destruct task as [| | | | | | fields];
    try (split; [intros [r H]; discriminate H | discriminate]).
  cbn [is_object andb]. unfold returns, task_within. rewrite task_body_run.
  rewrite short_returns. unfold task_marker.
  destruct (_extract_index _ "T") as [marker | e]; split;
    first [intros _; exact I | intros _; eexists; reflexivity | intros [r H]; discriminate H
          | intros []].
Qed.

Lemma milestone_body_returns pid milestone prev errors :
  returns (milestone_body pid milestone prev) errors <->
  milestone_shaped milestone && milestone_within pid milestone = true.
Proof.
  destruct milestone as [| | | | | | fields];
    try (split; [intros [r H]; discriminate H | discriminate]).
  unfold milestone_shaped, milestone_within, field. cbn [is_object andb].
  set (mid := milestone_ident pid (JDict fields)).
  pose proof (for_loop_returns (task_body pid mid) (fun task => is_object task && task_within task)
                (task_body_returns pid mid)) as Hloop.
  unfold returns. destruct (sequence (lookup "tasks" fields)) as [tasks |] eqn:Htasks.
  - rewrite (milestone_body_run pid fields tasks prev errors (sequence_some _ _ Htasks)).
    cbv zeta. fold mid. unfold milestone_marker. fold mid.
    rewrite !andb_true_iff, short_returns.
    destruct (_extract_index (PyStr.str mid) "M") as [marker | e].
    + match goal with
      | |- context [for_loop _ tasks 0 ?e] => specialize (Hloop tasks 0 e)
      end.
      rewrite forallb_andb, andb_true_iff in Hloop. unfold returns in Hloop.
      destruct (for_loop (task_body pid mid) tasks 0 _) as [[q e'] | e'].
      * split; [intros _ | intros _; eexists; reflexivity].
        destruct (proj1 Hloop (ex_intro _ _ eq_refl)) as [H1 H2]. now repeat split.
      * split; [intros [r H]; discriminate H |]. intros [H1 [_ H2]].
        destruct (proj2 Hloop (conj H1 H2)) as [r H]. discriminate H.
    + split; [intros [r H]; discriminate H | intros [_ [[] _]]].
  - rewrite (milestone_body_no_tasks pid fields prev errors Htasks).
    cbv zeta. fold mid. unfold milestone_marker. fold mid.
    rewrite andb_true_r. cbn [andb]. rewrite short_returns.
    destruct (_extract_index (PyStr.str mid) "M") as [marker | e]; split;
      first [intros _; exact I | intros _; eexists; reflexivity
            | intros [r H]; discriminate H | intros []].
Qed.

Lemma phase_body_returns entry u errors :
  returns (phase_body entry u) errors <->
  phase_shaped (snd entry) && phase_within entry = true.
Proof.
  destruct entry as [phase_idx phase]. cbn [snd].
  destruct phase as [| | | | | | fields];
    try (split; [intros [r H]; discriminate H | discriminate]).
  unfold phase_body, phase_shaped, phase_within, phase_ident, field. cbn [is_object andb].
  rewrite bind_get, bind_get, returns_bind.
  set (pid := or_default (JStr _) (lookup "phase_id" fields)).
  pose proof (for_loop_returns (milestone_body pid)
                (fun m => milestone_shaped m && milestone_within pid m)
                (milestone_body_returns pid)) as Hloop.
  pose proof (waves_run pid fields errors) as Hwaves.
  split.
  - intros (a & e & _ & H). rewrite bind_get in H.
    destruct (lookup "milestones" fields) as [[| | | | | milestones |] |]; try reflexivity.
    cbn [or_default sequence] in *. apply returns_check_bind in H. apply returns_bind in H.
    destruct H as (q & e' & H & _). rewrite <- forallb_andb. eapply Hloop.
    eexists; exact H.
  - intros H. eexists tt, _. split; [exact Hwaves |]. rewrite bind_get.
    destruct (lookup "milestones" fields) as [[| | | | | milestones |] |]; cbn [or_default];
      try (eexists; reflexivity).
    cbn [sequence] in H. rewrite <- forallb_andb in H.
    apply returns_check_bind. apply returns_bind.
    match goal with
    | |- context [for_loop _ milestones 0 ?e] =>
        destruct (proj2 (Hloop milestones 0 e) H) as [[q e'] Hq]
    end.
    exists q, e'. split; [exact Hq |]. rewrite bind_get.
    destruct (or_default (JDict []) (lookup "phase_gates" fields)); try (eexists; reflexivity).
    rewrite bind_not_in. apply returns_check_bind.
    destruct (1 <? phase_idx); [| eexists; reflexivity].
    rewrite bind_not_in. apply returns_check_bind.
    rewrite bind_not_in. apply returns_check.
Qed.

(** [validate] returns its list exactly on the documents in which the
    plan, every element of [phases], every element of a [milestones]
    that is a sequence and every element of a [tasks] that is a sequence
    is a mapping, and in which no identifier has a marker of more digits
    than [int] converts; on the others it raises. *)
Lemma validate_returns (plan : json) :
  (exists errors, validate plan = Ret errors) <-> shaped plan = true /\ within plan = true.
Proof.
  assert (H : (exists errors, validate plan = Ret errors) <-> returns (validate_from plan) []).
  { unfold validate, returns. destruct (validate_from plan []) as [[[] errors] | e]; split.
    - intros _. eexists; reflexivity.
    - intros _. eexists; reflexivity.
    - intros [errors H]. discriminate H.
    - intros [r H]. discriminate H. }
  rewrite H. clear H.
  destruct plan as [| | | | | | fields];
    try (split; [intros [r H]; discriminate H | intros [H _]; discriminate H]).
  unfold validate_from, shaped, within, field. cbn [is_object andb]. rewrite bind_get.
  destruct (lookup "phases" fields) as [[| | | | | phases |] |]; cbn [or_default sequence];
    try (split; [now split | intros _; eexists; reflexivity]).
  rewrite returns_check_bind.
  rewrite (for_loop_returns phase_body (fun entry => phase_shaped (snd entry) && phase_within entry)
             (fun x s e => phase_body_returns x s e)).
  now rewrite forallb_andb, andb_true_iff, forallb_enumerate.
Qed.

(** * The claims *)

(** C1 (as amended): on a document whose milestone identifiers are
    strings, and whose task identifiers are strings where there is one,
    an empty list is returned only if the document satisfies the
    contract and no marker goes beyond what [int] converts; a document
    that satisfies the contract and has no such marker gets the empty
    list.  In particular the empty list is returned on every regular
    document whose milestone and task markers, besides increasing
    strictly, start at 1 or above and have at most 4300 digits. *)
Theorem validate_empty_iff_contract (plan : json) :
  (string_ids plan = true -> validate plan = Ret [] ->
   conforms plan = true /\ within plan = true)
  /\ (conforms plan = true -> within plan = true -> validate plan = Ret [])
  /\ (regular true plan = true -> within plan = true -> validate plan = Ret []).
Proof.
  split; [| split].
  - intros Hids H. split.
    + apply accepted_conforms; [exact Hids | now apply validate_clean].
    + apply validate_returns. now exists [].
  - intros Hc Hw. apply validate_clean. now apply conforms_accepted.
  - intros Hr Hw. apply validate_clean. apply conforms_accepted; [exact Hw |].
    now apply regular_conforms.
Qed.

Lemma validate_empty_iff_contract_witness :
  (regular true (sample_plan 7) = true /\ within (sample_plan 7) = true
   /\ validate (sample_plan 7) = Ret [])
  /\ (string_ids (sample_plan 7) = true /\ conforms (sample_plan 7) = true).
Proof.
  assert (Hr : regular true (sample_plan 7) = true) by (vm_compute; reflexivity).
  assert (Hw : within (sample_plan 7) = true) by (vm_compute; reflexivity).
  assert (Hs : string_ids (sample_plan 7) = true) by (vm_compute; reflexivity).
  pose proof (proj2 (proj2 (validate_empty_iff_contract (sample_plan 7))) Hr Hw) as Hv.
  split; [now repeat split |]. split; [exact Hs |].
  exact (proj1 (proj1 (validate_empty_iff_contract (sample_plan 7)) Hs Hv)).
Defined.

(** C1, as stated, fails: a document of the regular shape whose
    milestone markers increase strictly from M0 is reported, once a
    phase, because the comparison starts at 0. *)
Lemma zero_based_markers_rejected :
  regular false zero_based_plan = true
  /\ validate zero_based_plan =
     Ret ["P1: P1-M0: milestone sequence is not strict";
          "P2: P2-M0: milestone sequence is not strict";
          "P3: P3-M0: milestone sequence is not strict";
          "P4: P4-M0: milestone sequence is not strict";
          "P5: P5-M0: milestone sequence is not strict";
          "P6: P6-M0: milestone sequence is not strict";
          "P7: P7-M0: milestone sequence is not strict"]
  /\ validate zero_based_plan <> Ret [].
Proof. repeat split; try (vm_compute; reflexivity). vm_compute. discriminate. Qed.

(** The two conditions of C1 as amended are needed.  A regular document
    that satisfies the contract, with a task marker of 4301 digits, gets
    no list at all: the conversion of line 30 raises. *)
Lemma long_marker_raises :
  regular true long_marker_plan = true
  /\ conforms long_marker_plan = true
  /\ within long_marker_plan = false
  /\ validate long_marker_plan = Raise ValueError.
Proof. repeat split; vm_compute; reflexivity. Qed.

(** And a document in which a milestone has no [milestone_id], under a
    phase whose id holds a marker, gets the empty list although the
    contract asks every milestone for an identifier with a marker. *)
Lemma stand_in_accepted :
  string_ids stand_in_plan = false
  /\ conforms stand_in_plan = false
  /\ validate stand_in_plan = Ret [].
Proof. repeat split; vm_compute; reflexivity. Qed.

(** C2: [validate] raises on a document in which an element of
    [phases], of [milestones] or of [tasks] is not a mapping: the
    [.get] of lines 45, 66 and 89 raises [AttributeError], and nothing
    catches it. *)
Theorem validate_raises_on_non_mapping :
  validate (plan_of [JInt "1"]) = Raise AttributeError
  /\ validate (plan_of [JDict [("milestones", JList [JStr "M1"])]]) = Raise AttributeError
  /\ validate (plan_of [JDict [("milestones", JList [JDict [("tasks", JList [JNull])]])]])
     = Raise AttributeError.
Proof. repeat split. Qed.

(** C3 (as amended): a milestone whose [tasks] is missing or not a
    sequence has its marker checked, gets the message about [tasks] and
    nothing more: neither its tasks nor its two gates are looked at.  The
    loop goes on with its siblings, and the checks on the gates of the
    phase follow.  All this when the marker check got its index; when
    the conversion raised, so does the milestone. *)
Theorem milestone_without_tasks :
  (forall pid fields rest prev errors marker,
     sequence (lookup "tasks" fields) = None ->
     milestone_marker pid (JDict fields) = Ret marker ->
     let mid := milestone_ident pid (JDict fields) in
     let prev' := advance prev marker in
     let errors' :=
       List.app errors
         (List.app (milestone_marker_report pid mid prev marker)
            [fmt pid ++ ": " ++ fmt mid ++ ": missing tasks[]"]) in
     milestone_body pid (JDict fields) prev errors = Ret (prev', errors')
     /\ for_loop (milestone_body pid) (JDict fields :: rest) prev errors =
        for_loop (milestone_body pid) rest prev' errors')
  /\ (forall pid fields prev errors e,
        sequence (lookup "tasks" fields) = None ->
        milestone_marker pid (JDict fields) = Raise e ->
        milestone_body pid (JDict fields) prev errors = Raise e)
  /\ validate (plan_of [phase_of "P1" [bare_milestone "M1"; full_milestone "M2" []] (JDict [])]) =
     Ret ["phase_count=1 < 7"; "P1: milestone_count=2 != 4";
          "P1: M1: missing tasks[]"; "P1: M2: task_count=0 != 15";
          "P1: missing phase_gates.phase_end_e2e"].
Proof.
  split; [| split; [| reflexivity]].
  - intros pid fields rest prev errors marker H Hmarker mid prev' errors'.
    assert (Hbody : milestone_body pid (JDict fields) prev errors = Ret (prev', errors')).
    { rewrite (milestone_body_no_tasks pid fields prev errors H). cbv zeta.
      now rewrite Hmarker. }
    split; [exact Hbody |].
    cbn [for_loop]. unfold bind at 1. now rewrite Hbody.
  - intros pid fields prev errors e H Hmarker.
    rewrite (milestone_body_no_tasks pid fields prev errors H). cbv zeta.
    now rewrite Hmarker.
Qed.

Lemma milestone_without_tasks_witness :
  (sequence (lookup "tasks" [("milestone_id", JStr "M1")]) = None
   /\ milestone_marker (JStr "P1") (bare_milestone "M1") = Ret (Some 1)
   /\ milestone_body (JStr "P1") (bare_milestone "M1") 0 [] =
      Ret (1, ["P1: M1: missing tasks[]"]))
  /\ (milestone_marker (JStr "P1") (bare_milestone ("M" ++ long_digits)) = Raise ValueError
      /\ milestone_body (JStr "P1") (bare_milestone ("M" ++ long_digits)) 0 [] =
         Raise ValueError).
Proof.
  split.
  - split; [reflexivity | split; [reflexivity |]].
    exact (proj1 (proj1 milestone_without_tasks (JStr "P1") [("milestone_id", JStr "M1")] [] 0 []
                    (Some 1) eq_refl eq_refl)).
  - assert (H : milestone_marker (JStr "P1") (bare_milestone ("M" ++ long_digits))
                = Raise ValueError) by (vm_compute; reflexivity).
    split; [exact H |].
    exact (proj1 (proj2 milestone_without_tasks) (JStr "P1")
             [("milestone_id", JStr ("M" ++ long_digits))] 0 [] ValueError eq_refl H).
Defined.

(** C3, as stated, fails: the milestone M1 below has no [tasks], no
    [unit_gate] and no [integration_gate], and the only message about it
    is the one about [tasks]. *)
Lemma gates_unchecked_without_tasks :
  let milestone := bare_milestone "M1" in
  let plan := plan_of [phase_of "P1" [milestone] all_gates] in
  field "tasks" milestone = None
  /\ present "unit_gate" milestone = false
  /\ present "integration_gate" milestone = false
  /\ validate plan =
     Ret ["phase_count=1 < 7"; "P1: milestone_count=1 != 4"; "P1: M1: missing tasks[]"]
  /\ (forall written, validate plan = Ret written ->
      ~ In "P1: M1: missing unit_gate" written
      /\ ~ In "P1: M1: missing integration_gate" written).
Proof.
  cbv zeta. split; [| split; [| split; [| split]]]; try reflexivity.
  intros written H. vm_compute in H. inversion H; subst.
  split; intros Hin; cbn in Hin;
    repeat (destruct Hin as [Hin | Hin]; [discriminate Hin |]); exact Hin.
Qed.

(** C4: when [phases] is absent or not a sequence the result is the one
    message about it, whatever else the document holds. *)
Theorem missing_phases_single_error (fields : list (string * json)) :
  sequence (lookup "phases" fields) = None ->
  validate (JDict fields) = Ret ["Missing required array: phases"].
Proof.
  intros H. unfold validate, validate_from. rewrite bind_get.
  destruct (lookup "phases" fields) as [[| | | | | phases |] |];
    first [discriminate H | reflexivity].
Qed.

Lemma missing_phases_single_error_witness :
  (sequence (lookup "phases" [("phases", JStr "seven")]) = None
   /\ validate (JDict [("phases", JStr "seven")]) = Ret ["Missing required array: phases"])
  /\ (sequence (lookup "phases" [("phase", JList [])]) = None
      /\ validate (JDict [("phase", JList [])]) = Ret ["Missing required array: phases"]).
Proof.
  split; (split; [reflexivity | apply missing_phases_single_error; reflexivity]).
Defined.

(** C5: the running milestone index of a phase starts at 0 and moves
    only to a marker that was found and is strictly greater; a missing
    marker or one that is not greater leaves it where it was.  Every
    phase runs the loop over its milestones from 0, whatever the phases
    before it left.  With the markers M1, M1, M3 the second M1 is
    reported and M3 is not. *)
Theorem running_milestone_index :
  (forall prev, advance prev None = prev)
  /\ (forall prev i, i <= prev -> advance prev (Some i) = prev)
  /\ (forall prev i, prev < i -> advance prev (Some i) = i)
  /\ (forall pid mid prev errors marker,
        _extract_index (PyStr.str mid) "M" = Ret marker ->
        check_milestone_marker pid mid prev errors =
        Ret (advance prev marker,
             List.app errors (milestone_marker_report pid mid prev marker)))
  /\ (forall pid milestones prev errors prev' errors',
        for_loop (milestone_body pid) milestones prev errors = Ret (prev', errors') ->
        prev' = fold_left advance (map (milestone_index pid) milestones) prev)
  /\ (forall phase_idx fields milestones errors,
        lookup "milestones" fields = Some (JList milestones) ->
        let pid := phase_ident phase_idx (JDict fields) in
        phase_body (phase_idx, JDict fields) tt errors =
        match
          for_loop (milestone_body pid) milestones 0
            (List.app errors (phase_head_report pid fields milestones))
        with
        | Ret (_, errors') =>
            Ret (tt, List.app errors'
                       (phase_gates_report pid phase_idx
                          (or_default (JDict []) (lookup "phase_gates" fields))))
        | Raise e => Raise e
        end)
  /\ validate
       (plan_of [phase_of "P1" [full_milestone "A-M1" (sample_tasks 1 15);
                                full_milestone "B-M1" (sample_tasks 1 15);
                                full_milestone "C-M3" (sample_tasks 1 15)] all_gates]) =
     Ret ["phase_count=1 < 7"; "P1: milestone_count=3 != 4";
          "P1: B-M1: milestone sequence is not strict"]
  /\ validate (plan_of [phase_of "P1" [full_milestone "M0" (sample_tasks 1 15)] all_gates]) =
     Ret ["phase_count=1 < 7"; "P1: milestone_count=1 != 4";
          "P1: M0: milestone sequence is not strict"]
  /\ validate (plan_of [phase_of "P1" [bare_milestone "M3"] all_gates;
                        phase_of "P2" [bare_milestone "M1"; bare_milestone "M1"] all_gates]) =
     Ret ["phase_count=2 < 7";
          "P1: milestone_count=1 != 4"; "P1: M3: missing tasks[]";
          "P2: milestone_count=2 != 4"; "P2: M1: missing tasks[]";
          "P2: M1: milestone sequence is not strict"; "P2: M1: missing tasks[]"].
Proof.
  split; [| split; [| split; [| split; [| split; [| split; [| repeat split]]]]]].
  - reflexivity.
  - intros prev i H. unfold advance. destruct (Z.ltb_spec prev i); [lia | reflexivity].
  - intros prev i H. unfold advance. destruct (Z.ltb_spec prev i); [reflexivity | lia].
  - intros pid mid prev errors marker H. now rewrite check_milestone_marker_run, H.
  - apply milestones_loop_value.
  - apply phase_body_milestones.
Qed.

Lemma running_milestone_index_witness :
  let milestones := [bare_milestone "M1"; bare_milestone "M1"; bare_milestone "M3"] in
  (for_loop (milestone_body (JStr "P1")) milestones 0 [] =
   Ret (3, ["P1: M1: missing tasks[]"; "P1: M1: milestone sequence is not strict";
            "P1: M1: missing tasks[]"; "P1: M3: missing tasks[]"])
   /\ 3 = fold_left advance (map (milestone_index (JStr "P1")) milestones) 0)
  /\ (_extract_index "M1" "M" = Ret (Some 1)
      /\ check_milestone_marker (JStr "P1") (JStr "M1") 1 [] =
         Ret (1, ["P1: M1: milestone sequence is not strict"])).
Proof.
  cbv zeta. split; (split; [reflexivity |]).
  - exact (proj1 (proj2 (proj2 (proj2 (proj2 running_milestone_index))))
             (JStr "P1") [bare_milestone "M1"; bare_milestone "M1"; bare_milestone "M3"] 0 [] 3
             _ eq_refl).
  - exact (proj1 (proj2 (proj2 (proj2 running_milestone_index)))
             (JStr "P1") (JStr "M1") 1 [] (Some 1) eq_refl).
Defined.

(** C6: a task whose identifier has no T marker gets the message about
    the marker and leaves the running task index alone; the index
    is 0 at the first task of every milestone, so a task marked T1 right
    after an unmarked first task passes the sequence check. *)
Theorem unmarked_task_keeps_index :
  (forall pid mid fields prev errors,
     task_marker (JDict fields) = Ret None ->
     task_body pid mid (JDict fields) prev errors =
     Ret (prev,
          List.app errors
            (List.app
               [fmt pid ++ ": " ++ fmt mid ++ ": task missing sequence marker: "
                  ++ task_ident (JDict fields)]
               (when_ (negb (has_key "done_criteria" fields))
                  (fmt pid ++ ": " ++ fmt mid ++ ": " ++ task_ident (JDict fields)
                     ++ ": missing done_criteria")))))
  /\ (forall pid mid unmarked marked rest errors,
        task_marker (JDict unmarked) = Ret None ->
        task_marker (JDict marked) = Ret (Some 1) ->
        for_loop (task_body pid mid) (JDict unmarked :: JDict marked :: rest) 0 errors =
        for_loop (task_body pid mid) rest 1
          (List.app errors
             (List.app (task_report pid mid unmarked 0 None)
                (when_ (negb (has_key "done_criteria" marked))
                   (fmt pid ++ ": " ++ fmt mid ++ ": " ++ task_ident (JDict marked)
                      ++ ": missing done_criteria")))))
  /\ (forall pid fields tasks prev errors marker last errors',
        lookup "tasks" fields = Some (JList tasks) ->
        milestone_marker pid (JDict fields) = Ret marker ->
        let mid := milestone_ident pid (JDict fields) in
        for_loop (task_body pid mid) tasks 0
          (List.app errors
             (List.app (milestone_marker_report pid mid prev marker)
                (when_ (negb (len tasks =? TASK_EXACT))
                   (fmt pid ++ ": " ++ fmt mid ++ ": task_count=" ++ str_int (len tasks)
                      ++ " != " ++ str_int TASK_EXACT)))) = Ret (last, errors') ->
        milestone_body pid (JDict fields) prev errors =
        Ret (advance prev marker,
             List.app errors'
               (List.app
                  (when_ (negb (has_key "unit_gate" fields))
                     (fmt pid ++ ": " ++ fmt mid ++ ": missing unit_gate"))
                  (when_ (negb (has_key "integration_gate" fields))
                     (fmt pid ++ ": " ++ fmt mid ++ ": missing integration_gate")))))
  /\ validate
       (plan_of [phase_of "P1" [full_milestone "M1" (sample_tasks 1 15);
                                full_milestone "M2" (unmarked_task :: sample_tasks 1 14)]
                   all_gates]) =
     Ret ["phase_count=1 < 7"; "P1: milestone_count=2 != 4";
          "P1: M2: task missing sequence marker: task-x"].
Proof.
  split; [| split; [| split; [| reflexivity]]].
  - intros pid mid fields prev errors H. rewrite task_body_run, H. reflexivity.
  - intros pid mid unmarked marked rest errors Hu Hm.
    cbn [for_loop]. unfold bind at 1. rewrite task_body_run, Hu. cbn [advance].
    unfold bind at 1. rewrite task_body_run, Hm. cbn [advance Z.ltb Z.compare].
    rewrite <- app_assoc. reflexivity.
  - intros pid fields tasks prev errors marker last errors' Htasks Hmarker mid Hloop.
    rewrite (milestone_body_run pid fields tasks prev errors Htasks). cbv zeta.
    rewrite Hmarker. fold mid. now rewrite Hloop.
Qed.

Lemma unmarked_task_keeps_index_witness :
  task_marker unmarked_task = Ret None
  /\ task_marker (sample_task 1) = Ret (Some 1)
  /\ task_body (JStr "P1") (JStr "M2") unmarked_task 0 [] =
     Ret (0, ["P1: M2: task missing sequence marker: task-x"])
  /\ for_loop (task_body (JStr "P1") (JStr "M2")) [unmarked_task; sample_task 1] 0 [] =
     Ret (1, ["P1: M2: task missing sequence marker: task-x"])
  /\ milestone_body (JStr "P1") (full_milestone "M2" [unmarked_task; sample_task 1]) 1 [] =
     Ret (2, ["P1: M2: task_count=2 != 15";
              "P1: M2: task missing sequence marker: task-x"]).
Proof.
  split; [reflexivity | split; [reflexivity | split; [| split]]].
  - exact (proj1 unmarked_task_keeps_index (JStr "P1") (JStr "M2")
             [("task_id", JStr "task-x"); ("done_criteria", JStr "reviewed")] 0 [] eq_refl).
  - exact (proj1 (proj2 unmarked_task_keeps_index) (JStr "P1") (JStr "M2")
             [("task_id", JStr "task-x"); ("done_criteria", JStr "reviewed")]
             [("task_id", JStr "T1"); ("done_criteria", JStr "reviewed")] [] []
             eq_refl eq_refl).
  - exact (proj1 (proj2 (proj2 unmarked_task_keeps_index)) (JStr "P1")
             [("milestone_id", JStr "M2");
              ("tasks", JList [unmarked_task; sample_task 1]);
              ("unit_gate", JStr "unit");
              ("integration_gate", JStr "integration")]
             [unmarked_task; sample_task 1] 1 [] (Some 2) 1 _ eq_refl eq_refl eq_refl).
Defined.

(** C7 (as amended): in a phase whose [milestones] is a sequence that is
    walked to its end and whose [phase_gates] is an object, or absent
    and taken as the empty object, the checks on the gates close the
    phase: the message for [phase_end_e2e] if it is absent and, from
    the second phase on only, one message for each rolling gate that is
    absent.  A phase whose [milestones] is missing or not a sequence
    gets the message about [milestones] after the one about its waves,
    and none about its gates. *)
Theorem rolling_gates_after_first_phase :
  (forall phase_idx fields milestones gates errors last errors',
     lookup "milestones" fields = Some (JList milestones) ->
     or_default (JDict []) (lookup "phase_gates" fields) = JDict gates ->
     let pid := phase_ident phase_idx (JDict fields) in
     for_loop (milestone_body pid) milestones 0
       (List.app errors (phase_head_report pid fields milestones)) = Ret (last, errors') ->
     phase_body (phase_idx, JDict fields) tt errors =
     Ret (tt,
          List.app errors'
            (List.app
               (when_ (negb (has_key "phase_end_e2e" gates))
                  (fmt pid ++ ": missing phase_gates.phase_end_e2e"))
               (if 1 <? phase_idx then
                  List.app
                    (when_ (negb (has_key "rolling_inter_phase_integration" gates))
                       (fmt pid ++ ": missing rolling_inter_phase_integration"))
                    (when_ (negb (has_key "rolling_cumulative_e2e" gates))
                       (fmt pid ++ ": missing rolling_cumulative_e2e"))
                else []))))
  /\ (forall phase_idx fields errors,
        sequence (lookup "milestones" fields) = None ->
        let pid := phase_ident phase_idx (JDict fields) in
        phase_body (phase_idx, JDict fields) tt errors =
        Ret (tt,
             List.app errors
               (List.app (waves_report pid fields) [fmt pid ++ ": missing milestones[]"])))
  /\ validate (with_phase 1 (sample_phase_with gates_without_inter 1 1 1)) = Ret []
  /\ validate (with_phase 2 (sample_phase_with gates_without_inter 1 1 2)) =
     Ret ["P2: missing rolling_inter_phase_integration"].
Proof.
  split; [| split; [| split; vm_compute; reflexivity]].
  - intros phase_idx fields milestones gates errors last errors' Hms Hgates pid Hloop.
    rewrite (phase_body_run phase_idx fields milestones gates errors Hms Hgates).
    fold pid. now rewrite Hloop.
  - apply phase_body_no_milestones.
Qed.

Lemma rolling_gates_after_first_phase_witness :
  (lookup "milestones" [("phase_id", JStr "P2"); ("milestones", JList [])] = Some (JList [])
   /\ phase_body (2, JDict [("phase_id", JStr "P2"); ("milestones", JList [])]) tt [] =
      Ret (tt, ["P2: missing waves[]"; "P2: milestone_count=0 != 4";
                "P2: missing phase_gates.phase_end_e2e";
                "P2: missing rolling_inter_phase_integration";
                "P2: missing rolling_cumulative_e2e"]))
  /\ (sequence (lookup "milestones" [("phase_id", JStr "P2"); ("milestones", JNull)]) = None
      /\ phase_body (2, JDict [("phase_id", JStr "P2"); ("milestones", JNull)]) tt ["before"] =
         Ret (tt, ["before"; "P2: missing waves[]"; "P2: missing milestones[]"])).
Proof.
  split; (split; [reflexivity |]).
  - exact (proj1 rolling_gates_after_first_phase 2
             [("phase_id", JStr "P2"); ("milestones", JList [])]
             [] [] [] 0 _ eq_refl eq_refl eq_refl).
  - exact (proj1 (proj2 rolling_gates_after_first_phase) 2
             [("phase_id", JStr "P2"); ("milestones", JNull)] ["before"] eq_refl).
Defined.

(** C7, as stated, fails: the second phase below has an object for
    [phase_gates] that lacks [rolling_inter_phase_integration], but no
    [milestones], and the only message about it is the one about
    [milestones]. *)
Lemma rolling_gates_skipped_without_milestones :
  let phase := phase_without_milestones "P2" gates_without_inter in
  field "phase_gates" phase = Some gates_without_inter
  /\ present "rolling_inter_phase_integration" gates_without_inter = false
  /\ validate (with_phase 2 phase) = Ret ["P2: missing milestones[]"]
  /\ (forall written, validate (with_phase 2 phase) = Ret written ->
      ~ In "P2: missing rolling_inter_phase_integration" written).
Proof.
  cbv zeta. split; [| split; [| split]]; try (vm_compute; reflexivity).
  intros written H Hin. vm_compute in H. inversion H; subst. cbn in Hin.
  repeat (destruct Hin as [Hin | Hin]; [discriminate Hin |]). exact Hin.
Qed.




(** C10: a milestone without [milestone_id] is searched for its marker
    in the stand-in identifier, the display id of the phase followed by
    [:milestone]; the marker found there is the one of the phase id, so
    under a phase id that has an M marker the milestone gets no message
    about a missing marker and takes the digits of the phase id as its
    index. *)
Theorem stand_in_identifier_marker :
  (forall pid fields,
     lookup "milestone_id" fields = None ->
     milestone_ident pid (JDict fields) = JStr (fmt pid ++ ":milestone")
     /\ milestone_marker pid (JDict fields) = _extract_index (fmt pid) "M")
  /\ (forall pid fields prev errors i,
        lookup "milestone_id" fields = None ->
        _extract_index (fmt pid) "M" = Ret (Some i) ->
        prev < i ->
        check_milestone_marker pid (milestone_ident pid (JDict fields)) prev errors =
        Ret (i, errors))
  /\ validate (plan_of [phase_of "M7-core" [JDict []; bare_milestone "M5"; bare_milestone "M8"]
                          all_gates]) =
     Ret ["phase_count=1 < 7"; "M7-core: milestone_count=3 != 4";
          "M7-core: M7-core:milestone: missing tasks[]";
          "M7-core: M5: milestone sequence is not strict";
          "M7-core: M5: missing tasks[]"; "M7-core: M8: missing tasks[]"].
Proof.
  split; [| split; [| reflexivity]].
  - intros pid fields H. unfold milestone_marker, milestone_ident, field. rewrite H.
    cbn [or_default PyStr.str]. split; [reflexivity | apply extract_index_stand_in].
  - intros pid fields prev errors i H Hi Hlt.
    rewrite check_milestone_marker_run. unfold milestone_marker_report, milestone_ident, field.
    rewrite H. cbn [or_default PyStr.str]. rewrite extract_index_stand_in, Hi.
    unfold advance. apply Z.ltb_lt in Hlt as Hlt'. rewrite Hlt'.
    destruct (Z.leb_spec i prev); [lia |]. cbn [when_]. now rewrite app_nil_r.
Qed.

Lemma stand_in_identifier_marker_witness :
  lookup "milestone_id" [] = None
  /\ _extract_index "M7-core" "M" = Ret (Some 7)
  /\ milestone_marker (JStr "M7-core") (JDict []) = Ret (Some 7)
  /\ check_milestone_marker (JStr "M7-core") (milestone_ident (JStr "M7-core") (JDict [])) 0 [] =
     Ret (7, []).
Proof.
  split; [reflexivity | split; [reflexivity | split]].
  - exact (proj2 (proj1 stand_in_identifier_marker (JStr "M7-core") [] eq_refl)).
  - apply (proj1 (proj2 stand_in_identifier_marker) (JStr "M7-core") [] 0 [] 7);
      [reflexivity | reflexivity | lia].
Defined.

(** * Further properties *)

(** ** Marker extraction *)

Lemma leading_digits_are_digits (s : string) :
  Forall (fun c => is_digit c = true) (leading_digits s).
Proof.
  induction s as [| c rest IH]; cbn [leading_digits]; [constructor |].
  destruct (is_digit c) eqn:Hc; constructor; assumption.
Qed.

Lemma digit_value_bounds (c : ascii) : is_digit c = true -> 0 <= digit_value c <= 9.
Proof.
  unfold is_digit, digit_value. cbv zeta. intros H.
  apply andb_prop in H as [H1 H2]. apply N.leb_le in H1, H2. lia.
Qed.

Lemma fold_digits_nonneg (ds : list ascii) (acc : Z) :
  Forall (fun c => is_digit c = true) ds -> 0 <= acc ->
  acc <= fold_left (fun a c => 10 * a + digit_value c) ds acc.
Proof.
  intros H. revert acc. induction H as [| c rest Hc _ IH]; intros acc Hacc; cbn [fold_left].
  - lia.
  - pose proof (digit_value_bounds c Hc). specialize (IH (10 * acc + digit_value c)). lia.
Qed.

Lemma match_here_digits (marker s : string) (ds : list ascii) :
  match_here marker s = Some ds -> Forall (fun c => is_digit c = true) ds.
Proof.
  unfold match_here. destruct (strip_prefix marker s) as [rest |]; [| discriminate].
  pose proof (leading_digits_are_digits rest) as Hd.
  destruct (leading_digits rest) as [| d tl]; [discriminate |].
  intros H. now inversion H; subst.
Qed.

Lemma search_digits (marker value : string) (ds : list ascii) :
  search marker value = Some ds -> Forall (fun c => is_digit c = true) ds.
Proof.
  induction value as [| c rest IH]; cbn [search].
  - destruct (match_here marker "") as [m |] eqn:Hm; [| discriminate].
    intros H. inversion H; subst. now apply match_here_digits in Hm.
  - destruct (match_here marker (String c rest)) as [m |] eqn:Hm; [| exact IH].
    intros H. inversion H; subst. now apply match_here_digits in Hm.
Qed.

(** An index that was returned is the value of the digits that
    [re.search] found, and these are within the limit. *)
Lemma extract_index_some (value marker : string) (n : Z) :
  _extract_index value marker = Ret (Some n) <->
  exists ds, search marker value = Some ds
             /\ len ds <= INT_MAX_STR_DIGITS /\ n = int_of_digits ds.
Proof.
  unfold _extract_index, py_int. destruct (search marker value) as [ds |]; split.
  - destruct (Z.ltb_spec INT_MAX_STR_DIGITS (len ds)) as [Hgt | Hle]; [discriminate |].
    intros H. inversion H. exists ds. now repeat split.
  - intros (ds' & H & Hlen & ->). inversion H; subst ds'.
    destruct (Z.ltb_spec INT_MAX_STR_DIGITS (len ds)) as [Hgt | Hle]; [lia | reflexivity].
  - discriminate.
  - intros (ds' & H & _). discriminate H.
Qed.

(** X1: an extracted index is never negative. *)
Theorem extract_index_nonneg (value marker : string) (n : Z) :
  _extract_index value marker = Ret (Some n) -> 0 <= n.
Proof.
  intros H. apply extract_index_some in H as (ds & Hs & _ & ->).
  apply (fold_digits_nonneg ds 0); [now apply search_digits in Hs | lia].
Qed.

Lemma extract_index_nonneg_witness :
  _extract_index "P01-M3-T12" "M" = Ret (Some 3) /\ 0 <= 3.
Proof.
  split; [reflexivity |]. apply (extract_index_nonneg "P01-M3-T12" "M" 3). reflexivity.
Defined.

Lemma leading_digits_app (s t : string) :
  leading_digits t = [] -> leading_digits (s ++ t) = leading_digits s.
Proof.
  intros Ht. induction s as [| c rest IH]; [exact Ht |].
  cbn [append leading_digits]. now rewrite IH.
Qed.

Lemma strip_prefix_app (p s rest t : string) :
  strip_prefix p s = Some rest -> strip_prefix p (s ++ t) = Some (rest ++ t).
Proof.
  revert s. induction p as [| a p' IH]; intros s H.
  - cbn in H. inversion H. reflexivity.
  - destruct s as [| b s']; [discriminate H |]. cbn [append strip_prefix] in *.
    destruct (Ascii.eqb a b); [now apply IH | discriminate H].
Qed.

Lemma match_here_app (marker s t : string) (ds : list ascii) :
  leading_digits t = [] ->
  match_here marker s = Some ds -> match_here marker (s ++ t) = Some ds.
Proof.
  intros Ht. unfold match_here.
  destruct (strip_prefix marker s) as [rest |] eqn:Hs; [| discriminate].
  rewrite (strip_prefix_app _ _ _ t Hs), (leading_digits_app rest t Ht). trivial.
Qed.

(** A failed match at the head stays failed under a suffix, when the
    head is long enough to hold the marker. *)
Lemma strip_prefix_none_app (p s t : string) :
  (String.length p <= String.length s)%nat ->
  strip_prefix p s = None -> strip_prefix p (s ++ t) = None.
Proof.
  revert s. induction p as [| a p' IH]; intros s Hlen H; [discriminate H |].
  destruct s as [| b s']; [cbn in Hlen; lia |]. cbn [append strip_prefix String.length] in *.
  destruct (Ascii.eqb a b); [apply IH; [lia | exact H] | reflexivity].
Qed.

Lemma strip_prefix_length (p s rest : string) :
  strip_prefix p s = Some rest -> String.length s = (String.length p + String.length rest)%nat.
Proof.
  revert s. induction p as [| a p' IH]; intros s H.
  - cbn in H. now inversion H.
  - destruct s as [| b s']; [discriminate H |]. cbn [strip_prefix String.length] in *.
    destruct (Ascii.eqb a b); [| discriminate H]. rewrite (IH s' H). reflexivity.
Qed.

Lemma match_here_length (marker s : string) (ds : list ascii) :
  match_here marker s = Some ds -> (String.length marker < String.length s)%nat.
Proof.
  unfold match_here. destruct (strip_prefix marker s) as [rest |] eqn:Hs; [| discriminate].
  rewrite (strip_prefix_length _ _ _ Hs).
  destruct rest as [| c rest']; [discriminate |]. cbn [String.length]. lia.
Qed.

Lemma search_length (marker value : string) (ds : list ascii) :
  search marker value = Some ds -> (String.length marker < String.length value)%nat.
Proof.
  induction value as [| c rest IH]; cbn [search].
  - destruct (match_here marker "") eqn:Hm; [| discriminate].
    intros _. now apply match_here_length in Hm.
  - destruct (match_here marker (String c rest)) eqn:Hm.
    + intros _. now apply match_here_length in Hm.
    + intros H. apply IH in H. cbn [String.length]. lia.
Qed.

Lemma match_here_none_app (marker s t : string) :
  (String.length marker < String.length s)%nat ->
  leading_digits t = [] ->
  match_here marker s = None -> match_here marker (s ++ t) = None.
Proof.
  intros Hlen Ht. unfold match_here.
  destruct (strip_prefix marker s) as [rest |] eqn:Hs.
  - rewrite (strip_prefix_app _ _ _ t Hs), (leading_digits_app rest t Ht). trivial.
  - intros _. rewrite strip_prefix_none_app; [reflexivity | lia | exact Hs].
Qed.

Lemma search_app (value suffix marker : string) (ds : list ascii) :
  leading_digits suffix = [] ->
  search marker value = Some ds -> search marker (value ++ suffix) = Some ds.
Proof.
  intros Ht. induction value as [| c rest IH]; intros H.
  - apply search_length in H. cbn in H. lia.
  - cbn [append search] in *.
    destruct (match_here marker (String c rest)) as [m |] eqn:Hm.
    + change (String c (rest ++ suffix)) with (String c rest ++ suffix).
      now rewrite (match_here_app _ _ _ _ Ht Hm).
    + change (String c (rest ++ suffix)) with (String c rest ++ suffix).
      rewrite match_here_none_app; [now apply IH | | exact Ht | exact Hm].
      apply search_length in H. cbn [String.length]. lia.
Qed.

(** X3: the first match decides: text added after the value does not
    change the index, unless it starts with a digit. *)
Theorem extract_index_first_match (value suffix marker : string) (n : Z) :
  leading_digits suffix = [] ->
  _extract_index value marker = Ret (Some n) ->
  _extract_index (value ++ suffix) marker = Ret (Some n).
Proof.
  intros Ht H. apply extract_index_some in H as (ds & Hs & Hlen & ->).
  apply extract_index_some. exists ds. split; [now apply search_app | now split].
Qed.

Lemma extract_index_first_match_witness :
  leading_digits "-M7" = []
  /\ _extract_index "P01-M3" "M" = Ret (Some 3)
  /\ _extract_index ("P01-M3" ++ "-M7") "M" = Ret (Some 3).
Proof.
  split; [reflexivity | split; [reflexivity |]].
  apply (extract_index_first_match "P01-M3" "-M7" "M" 3); reflexivity.
Defined.

Lemma search_not_substring (value marker : string) :
  is_substring marker value = false -> search marker value = None.
Proof.
  induction value as [| c rest IH]; cbn [is_substring search]; unfold match_here.
  - destruct (strip_prefix marker ""); [discriminate | reflexivity].
  - destruct (strip_prefix marker (String c rest)); [discriminate | exact IH].
Qed.

Lemma strip_prefix_digit_free (p s rest : string) :
  existsb is_digit (list_ascii_of_string s) = false ->
  strip_prefix p s = Some rest ->
  existsb is_digit (list_ascii_of_string rest) = false.
Proof.
  revert s. induction p as [| a p' IH]; intros s Hs H.
  - cbn in H. now inversion H; subst.
  - destruct s as [| b s']; [discriminate H |]. cbn [strip_prefix] in H.
    destruct (Ascii.eqb a b); [| discriminate H].
    cbn [list_ascii_of_string existsb] in Hs. apply orb_false_elim in Hs as [_ Hs].
    now apply (IH s').
Qed.

Lemma leading_digits_digit_free (s : string) :
  existsb is_digit (list_ascii_of_string s) = false -> leading_digits s = [].
Proof.
  destruct s as [| c rest]; [reflexivity |]. cbn [list_ascii_of_string existsb leading_digits].
  intros H. apply orb_false_elim in H as [Hc _]. now rewrite Hc.
Qed.

Lemma search_digit_free (value marker : string) :
  existsb is_digit (list_ascii_of_string value) = false -> search marker value = None.
Proof.
  induction value as [| c rest IH]; intros H; cbn [search]; unfold match_here.
  - destruct (strip_prefix marker "") as [r |] eqn:Hs; [| reflexivity].
    now rewrite (leading_digits_digit_free r (strip_prefix_digit_free _ _ _ H Hs)).
  - assert (Hrest : existsb is_digit (list_ascii_of_string rest) = false).
    { cbn [list_ascii_of_string existsb] in H. now apply orb_false_elim in H as [_ H]. }
    destruct (strip_prefix marker (String c rest)) as [r |] eqn:Hs.
    + rewrite (leading_digits_digit_free r (strip_prefix_digit_free _ _ _ H Hs)). now apply IH.
    + now apply IH.
Qed.

(** X2: a value that does not contain the marker, or that contains no
    digit, has no index. *)
Theorem extract_index_none (value marker : string) :
  (is_substring marker value = false -> _extract_index value marker = Ret None)
  /\ (existsb is_digit (list_ascii_of_string value) = false ->
      _extract_index value marker = Ret None).
Proof.
  unfold _extract_index.
  split; intros H; [rewrite search_not_substring | rewrite search_digit_free]; trivial.
Qed.

Lemma extract_index_none_witness :
  (is_substring "T" "task-x" = false /\ _extract_index "task-x" "T" = Ret None)
  /\ (existsb is_digit (list_ascii_of_string "TM-alpha") = false
      /\ _extract_index "TM-alpha" "T" = Ret None).
Proof.
  split; (split; [reflexivity |]).
  - apply (proj1 (extract_index_none "task-x" "T")). reflexivity.
  - apply (proj2 (extract_index_none "TM-alpha" "T")). reflexivity.
Defined.

Lemma digits_of_uint_acc (d : Decimal.uint) (p : positive) :
  fold_left (fun a c => 10 * a + digit_value c)
    (list_ascii_of_string (NilEmpty.string_of_uint d)) (Z.pos p)
  = Z.pos (Pos.of_uint_acc d p).
Proof.
  revert p. induction d; intros p;
    cbn [NilEmpty.string_of_uint list_ascii_of_string Pos.of_uint_acc fold_left];
    try reflexivity.
  all: match goal with
       | |- fold_left _ _ ?acc = Z.pos (Pos.of_uint_acc _ ?q) =>
           replace acc with (Z.pos q); [apply IHd |]
       end;
    unfold digit_value; cbn [N_of_ascii N_of_digits Z.of_N N.add N.mul]; lia.
Qed.

Lemma digits_of_uint (d : Decimal.uint) :
  int_of_digits (list_ascii_of_string (NilEmpty.string_of_uint d)) = Z.of_N (Pos.of_uint d).
Proof.
  unfold int_of_digits. induction d;
    cbn [NilEmpty.string_of_uint list_ascii_of_string Pos.of_uint fold_left];
    try reflexivity.
  - exact IHd.
  - apply (digits_of_uint_acc d 1).
  - apply (digits_of_uint_acc d 2).
  - apply (digits_of_uint_acc d 3).
  - apply (digits_of_uint_acc d 4).
  - apply (digits_of_uint_acc d 5).
  - apply (digits_of_uint_acc d 6).
  - apply (digits_of_uint_acc d 7).
  - apply (digits_of_uint_acc d 8).
  - apply (digits_of_uint_acc d 9).
Qed.

(** The decimal text of a number is made of digits, all of which the
    pattern takes when no digit follows. *)
Lemma leading_digits_uint (d : Decimal.uint) (rest : string) :
  leading_digits rest = [] ->
  leading_digits (NilEmpty.string_of_uint d ++ rest)
  = list_ascii_of_string (NilEmpty.string_of_uint d).
Proof.
  intros Hrest. induction d;
    cbn [NilEmpty.string_of_uint append leading_digits list_ascii_of_string];
    try exact Hrest.
  all: change (is_digit _) with true; cbn iota; now rewrite IHd.
Qed.

Lemma leading_digits_str_int (n : Z) (rest : string) :
  0 <= n -> leading_digits rest = [] ->
  leading_digits (str_int n ++ rest) = list_ascii_of_string (str_int n)
  /\ list_ascii_of_string (str_int n) <> []
  /\ int_of_digits (list_ascii_of_string (str_int n)) = n.
Proof.
  intros Hn Hrest. unfold str_int.
  pose proof (DecimalZ.of_to n) as Hof.
  destruct n as [| p | p]; [| | lia]; cbn [Z.to_int NilZero.string_of_int] in *.
  - cbn. rewrite Hrest. repeat split. discriminate.
  - assert (Hz : NilZero.string_of_uint (Pos.to_uint p) = NilEmpty.string_of_uint (Pos.to_uint p)
                 \/ Pos.to_uint p = Decimal.Nil).
    { destruct (Pos.to_uint p); auto. }
    destruct Hz as [Hz | Hz].
    + rewrite Hz. split; [now apply leading_digits_uint |]. split.
      * pose proof (Unsigned.to_uint_nonnil p) as Hnil.
        destruct (Pos.to_uint p); first [now elim Hnil | discriminate].
      * rewrite digits_of_uint. cbn [Z.of_int] in Hof. unfold Z.of_uint in Hof. exact Hof.
    + now elim (Unsigned.to_uint_nonnil p).
Qed.

Lemma strip_prefix_self (marker s : string) : strip_prefix marker (marker ++ s) = Some s.
Proof.
  induction marker as [| a m IH]; [reflexivity |].
  cbn [append strip_prefix]. now rewrite Ascii.eqb_refl.
Qed.

Lemma search_skip (c : ascii) (pre s : string) :
  PyStr.contains_char c pre = false ->
  search (String c EmptyString) (pre ++ s) = search (String c EmptyString) s.
Proof.
  induction pre as [| d pre' IH]; intros H; [reflexivity |].
  cbn [PyStr.contains_char] in H. apply orb_false_elim in H as [Hcd H].
  cbn [append search]. unfold match_here at 1. cbn [strip_prefix]. rewrite Hcd.
  now apply IH.
Qed.

(** The digits that follow the first marker letter are the ones that
    are found. *)
Lemma search_marker_digits (c : ascii) (pre s : string) :
  PyStr.contains_char c pre = false ->
  leading_digits s <> [] ->
  search (String c EmptyString) (pre ++ String c s) = Some (leading_digits s).
Proof.
  intros Hpre Hs. rewrite (search_skip c pre _ Hpre). cbn [search]. unfold match_here.
  cbn [strip_prefix]. rewrite Ascii.eqb_refl.
  destruct (leading_digits s); [now elim Hs | reflexivity].
Qed.

(** X4: an identifier made of a prefix without the marker letter, the
    letter, the decimal text of [n] and a rest that does not start with
    a digit has index [n], as long as [n] has no more digits than [int]
    converts. *)
Theorem extract_index_round_trip (c : ascii) (pre rest : string) (n : Z) :
  0 <= n ->
  len (list_ascii_of_string (str_int n)) <= INT_MAX_STR_DIGITS ->
  PyStr.contains_char c pre = false ->
  leading_digits rest = [] ->
  _extract_index (pre ++ String c (str_int n ++ rest)) (String c EmptyString)
  = Ret (Some n).
Proof.
  intros Hn Hlen Hpre Hrest.
  destruct (leading_digits_str_int n rest Hn Hrest) as (Hd & Hne & Hval).
  apply extract_index_some. exists (list_ascii_of_string (str_int n)).
  split; [| now split].
  rewrite <- Hd. apply search_marker_digits; [exact Hpre | now rewrite Hd].
Qed.

Lemma extract_index_round_trip_witness :
  _extract_index ("P01-" ++ String "M" (str_int 12 ++ "-T3")) "M" = Ret (Some 12).
Proof.
  apply (extract_index_round_trip "M" "P01-" "-T3" 12);
    [lia | apply Z.leb_le; reflexivity | reflexivity | reflexivity].
Defined.

(** X5: a zero in front of the digits does not change the index, as
    long as the run with the zero is one that [int] converts. *)
Theorem extract_index_zero_padding (c : ascii) (pre digits : string) :
  PyStr.contains_char c pre = false ->
  leading_digits digits <> [] ->
  len (leading_digits digits) < INT_MAX_STR_DIGITS ->
  _extract_index (pre ++ String c (String "0" digits)) (String c EmptyString)
  = _extract_index (pre ++ String c digits) (String c EmptyString).
Proof.
  intros Hpre Hdigits Hlen. unfold _extract_index.
  rewrite (search_marker_digits c pre digits Hpre Hdigits).
  rewrite (search_marker_digits c pre (String "0" digits) Hpre) by discriminate.
  cbn [leading_digits]. change (is_digit "0") with true. cbn iota.
  rewrite !py_int_short.
  - reflexivity.
  - lia.
  - unfold len in *. cbn [length]. lia.
Qed.

Lemma extract_index_zero_padding_witness :
  _extract_index ("P01-" ++ String "M" (String "0" "3-T12")) "M" = Ret (Some 3)
  /\ _extract_index ("P01-" ++ String "M" "3-T12") "M" = Ret (Some 3).
Proof.
  assert (H : _extract_index ("P01-" ++ String "M" (String "0" "3-T12")) "M"
              = _extract_index ("P01-" ++ String "M" "3-T12") "M").
  { apply (extract_index_zero_padding "M" "P01-" "3-T12");
      [reflexivity | discriminate | apply Z.ltb_lt; reflexivity]. }
  split; [rewrite H |]; reflexivity.
Defined.

(** At the limit the zero makes the difference: the run of 4300 digits
    has an index, the same run behind a zero raises. *)
Lemma zero_padding_at_the_limit :
  let digits := string_of_list_ascii (repeat "1"%char 4300) in
  (exists n, _extract_index (String "M" digits) "M" = Ret (Some n))
  /\ _extract_index (String "M" (String "0" digits)) "M" = Raise ValueError.
Proof. cbv zeta. split; [eexists |]; vm_compute; reflexivity. Qed.

(** ** What raises *)

Lemma for_loop_raise {A S : Type} (body : A -> S -> M S) (mapping within_limit : A -> bool) :
  (forall x s errors e,
     body x s errors = Raise e ->
     (e = AttributeError /\ mapping x = false)
     \/ (e = ValueError /\ within_limit x = false)) ->
  forall xs s errors e,
    for_loop body xs s errors = Raise e ->
    (e = AttributeError /\ forallb mapping xs = false)
    \/ (e = ValueError /\ forallb within_limit xs = false).
Proof.
  intros Hbody. induction xs as [| x rest IH]; intros s errors e; cbn [for_loop forallb].
  - discriminate.
  - unfold bind. destruct (body x s errors) as [[s1 e1] | e1] eqn:Hx; intros H.
    + apply IH in H as [[-> Hf] | [-> Hf]]; [left | right];
        (split; [reflexivity | rewrite Hf; apply andb_false_r]).
    + inversion H; subst.
      apply Hbody in Hx as [[-> Hf] | [-> Hf]]; [left | right];
        (split; [reflexivity | now rewrite Hf]).
Qed.

Lemma task_body_raise pid mid task prev errors e :
  task_body pid mid task prev errors = Raise e ->
  (e = AttributeError /\ is_object task = false)
  \/ (e = ValueError /\ task_within task = false).
Proof.
  destruct task as [| | | | | | fields];
    try (intros H; inversion H; left; split; reflexivity).
  rewrite task_body_run. unfold task_within, task_marker.
  destruct (_extract_index _ "T") as [marker | e'] eqn:Hm; [discriminate |].
  intros H. inversion H; subst. apply extract_index_raise in Hm as [Hs ->]. now right.
Qed.

Lemma milestone_body_raise pid milestone prev errors e :
  milestone_body pid milestone prev errors = Raise e ->
  (e = AttributeError /\ milestone_shaped milestone = false)
  \/ (e = ValueError /\ milestone_within pid milestone = false).
Proof.
  destruct milestone as [| | | | | | fields];
    try (intros H; inversion H; left; split; reflexivity).
  unfold milestone_shaped, milestone_within, field. cbn [is_object andb].
  set (mid := milestone_ident pid (JDict fields)).
  destruct (sequence (lookup "tasks" fields)) as [tasks |] eqn:Htasks.
  - rewrite (milestone_body_run pid fields tasks prev errors (sequence_some _ _ Htasks)).
    cbv zeta. fold mid. unfold milestone_marker. fold mid.
    destruct (_extract_index (PyStr.str mid) "M") as [marker | e'] eqn:Hm.
    + destruct (for_loop (task_body pid mid) tasks 0 _) as [[q e1] | e1] eqn:Hloop;
        [discriminate |].
      intros H. inversion H; subst.
      apply (for_loop_raise _ _ _ (task_body_raise pid mid)) in Hloop
        as [[-> Hf] | [-> Hf]]; [left | right]; (split; [reflexivity |]);
        [exact Hf | rewrite Hf; apply andb_false_r].
    + intros H. inversion H; subst. apply extract_index_raise in Hm as [Hs ->].
      right. split; [reflexivity | now rewrite Hs].
  - rewrite (milestone_body_no_tasks pid fields prev errors Htasks).
    cbv zeta. fold mid. unfold milestone_marker. fold mid.
    destruct (_extract_index (PyStr.str mid) "M") as [marker | e'] eqn:Hm; [discriminate |].
    intros H. inversion H; subst. apply extract_index_raise in Hm as [Hs ->].
    right. split; [reflexivity | now rewrite Hs].
Qed.

Lemma phase_body_raise entry u errors e :
  phase_body entry u errors = Raise e ->
  (e = AttributeError /\ phase_shaped (snd entry) = false)
  \/ (e = ValueError /\ phase_within entry = false).
Proof.
  destruct entry as [phase_idx phase]. destruct u. cbn [snd].
  destruct phase as [| | | | | | fields];
    try (intros H; inversion H; left; split; reflexivity).
  unfold phase_shaped, phase_within, field. cbn [is_object andb].
  destruct (sequence (lookup "milestones" fields)) as [milestones |] eqn:Hms.
  - rewrite (phase_body_milestones phase_idx fields milestones errors (sequence_some _ _ Hms)).
    cbv zeta.
    destruct (for_loop (milestone_body _) milestones 0 _) as [[q e1] | e1] eqn:Hloop;
      [discriminate |].
    intros H. inversion H; subst.
    exact (for_loop_raise _ _ _ (milestone_body_raise _) _ _ _ _ Hloop).
  - rewrite (phase_body_no_milestones phase_idx fields errors Hms). discriminate.
Qed.

(** What [validate] raises and why: an [AttributeError] for a
    non-mapping where the traversal needs a mapping, a [ValueError] for
    a marker that [int] does not convert, and nothing else. *)
Lemma validate_raise (plan : json) (e : exn) :
  validate plan = Raise e ->
  (e = AttributeError /\ shaped plan = false)
  \/ (e = ValueError /\ within plan = false).
Proof.
  destruct plan as [| | | | | | fields];
    try (intros H; inversion H; left; split; reflexivity).
  unfold validate, validate_from, shaped, within, field. cbn [is_object andb].
  rewrite bind_get.
  destruct (lookup "phases" fields) as [[| | | | | phases |] |]; cbn [or_default sequence];
    try discriminate.
  unfold bind at 1. rewrite check_run.
  destruct (for_loop phase_body (enumerate 1 phases) tt _) as [[[] e1] | e1] eqn:Hloop;
    [discriminate |].
  intros H. inversion H; subst.
  apply (for_loop_raise _ _ _ phase_body_raise) in Hloop. now rewrite forallb_enumerate in Hloop.
Qed.

(** X6: [validate] raises exactly on the documents that hold a
    non-mapping where the traversal needs a mapping or an identifier
    whose marker has more digits than [int] converts; what it raises is
    an [AttributeError] only in the first case, a [ValueError] only in
    the second, and never anything else. *)
Theorem validate_raises_iff (plan : json) :
  ((exists e, validate plan = Raise e) <-> shaped plan = false \/ within plan = false)
  /\ (forall e, validate plan = Raise e ->
        (e = AttributeError /\ shaped plan = false)
        \/ (e = ValueError /\ within plan = false)).
Proof.
  split; [| apply validate_raise].
  pose proof (validate_returns plan) as Hret. split.
  - intros [e H]. apply validate_raise in H as [[_ H] | [_ H]]; auto.
  - intros H. destruct (validate plan) as [errors | e]; [| now exists e].
    destruct (proj1 Hret (ex_intro _ errors eq_refl)) as [Hs Hw].
    rewrite Hs, Hw in H. destruct H; discriminate.
Qed.

(** Both exceptions occur. *)
Lemma validate_raises_both :
  (shaped (plan_of [JNull]) = false /\ validate (plan_of [JNull]) = Raise AttributeError)
  /\ (shaped long_marker_plan = true /\ within long_marker_plan = false
      /\ validate long_marker_plan = Raise ValueError).
Proof. repeat split; vm_compute; reflexivity. Qed.

(** ** The skeleton *)

Import Skeleton.

Lemma for_loop_ext {A S : Type} (body : A -> S -> M S) (f : A -> A) (xs : list A) :
  (forall x s errors, body (f x) s errors = body x s errors) ->
  forall s errors, for_loop body (map f xs) s errors = for_loop body xs s errors.
Proof.
  intros Hbody. induction xs as [| x rest IH]; intros s errors; [reflexivity |].
  cbn [map for_loop]. unfold bind. rewrite Hbody.
  destruct (body x s errors) as [[s' errors'] |]; [apply IH | reflexivity].
Qed.

Lemma task_skeleton_same pid mid task prev errors :
  task_body pid mid (task_skeleton task) prev errors = task_body pid mid task prev errors.
Proof.
  destruct task as [| | | | | | fields]; try reflexivity.
  cbn [task_skeleton]. rewrite !task_body_run.
  unfold task_report, task_marker, task_ident, field, keep, mark, has_key.
  destruct (lookup "task_id" fields), (lookup "done_criteria" fields); reflexivity.
Qed.

Lemma len_map {A B : Type} (f : A -> B) (l : list A) : len (map f l) = len l.
Proof. unfold len. now rewrite length_map. Qed.

Lemma milestone_skeleton_same pid milestone prev errors :
  milestone_body pid (milestone_skeleton milestone) prev errors =
  milestone_body pid milestone prev errors.
Proof.
  destruct milestone as [| | | | | | fields]; try reflexivity.
  cbn [milestone_skeleton].
  set (kept := (keep "milestone_id" fields ++ _)%list).
  assert (Hmid : lookup "milestone_id" kept = lookup "milestone_id" fields).
  { subst kept. unfold keep. destruct (lookup "milestone_id" fields) eqn:H; [reflexivity |].
    unfold mark, has_key.
    destruct (sequence (lookup "tasks" fields)), (lookup "unit_gate" fields),
      (lookup "integration_gate" fields); reflexivity. }
  assert (Hunit : has_key "unit_gate" kept = has_key "unit_gate" fields).
  { subst kept. unfold keep, mark, has_key.
    destruct (lookup "milestone_id" fields), (sequence (lookup "tasks" fields)),
      (lookup "unit_gate" fields), (lookup "integration_gate" fields); reflexivity. }
  assert (Hint : has_key "integration_gate" kept = has_key "integration_gate" fields).
  { subst kept. unfold keep, mark, has_key.
    destruct (lookup "milestone_id" fields), (sequence (lookup "tasks" fields)),
      (lookup "unit_gate" fields), (lookup "integration_gate" fields); reflexivity. }
  destruct (sequence (lookup "tasks" fields)) as [tasks |] eqn:Hseq.
  - assert (Hkept : lookup "tasks" kept = Some (JList (map task_skeleton tasks))).
    { subst kept. unfold keep. destruct (lookup "milestone_id" fields); reflexivity. }
    rewrite (milestone_body_run pid fields tasks prev errors (sequence_some _ _ Hseq)).
    rewrite (milestone_body_run pid kept _ prev errors Hkept).
    unfold milestone_marker, milestone_ident, field. rewrite Hmid, Hunit, Hint, len_map.
    destruct (_extract_index _ "M") as [marker | e]; [| reflexivity].
    rewrite (for_loop_ext _ task_skeleton tasks); [reflexivity |].
    intros. apply task_skeleton_same.
  - assert (Hkept : sequence (lookup "tasks" kept) = None).
    { subst kept. unfold keep, mark, has_key.
      destruct (lookup "milestone_id" fields), (lookup "unit_gate" fields),
        (lookup "integration_gate" fields); reflexivity. }
    rewrite (milestone_body_no_tasks pid fields prev errors Hseq).
    rewrite (milestone_body_no_tasks pid kept prev errors Hkept).
    unfold milestone_marker, milestone_ident, field. now rewrite Hmid.
Qed.

Lemma waves_report_sequence pid fields :
  waves_report pid fields =
  match sequence (lookup "waves" fields) with
  | Some waves =>
      when_ (len waves <? WAVE_MIN)
        (fmt pid ++ ": wave_count=" ++ str_int (len waves) ++ " < " ++ str_int WAVE_MIN)
  | None => [fmt pid ++ ": missing waves[]"]
  end.
Proof.
  unfold waves_report. destruct (lookup "waves" fields) as [[| | | | | waves |] |]; reflexivity.
Qed.

(** What a phase that is a mapping does, in one equation. *)
Lemma phase_body_run_full phase_idx fields errors :
  let pid := phase_ident phase_idx (JDict fields) in
  phase_body (phase_idx, JDict fields) tt errors =
  match sequence (lookup "milestones" fields) with
  | None =>
      Ret (tt, List.app errors
                 (List.app (waves_report pid fields) [fmt pid ++ ": missing milestones[]"]))
  | Some milestones =>
      match
        for_loop (milestone_body pid) milestones 0
          (List.app errors (phase_head_report pid fields milestones))
      with
      | Ret (_, errors') =>
          Ret (tt,
               List.app errors'
                 (phase_gates_report pid phase_idx
                    (or_default (JDict []) (lookup "phase_gates" fields))))
      | Raise e => Raise e
      end
  end.
Proof.
  cbv zeta. destruct (sequence (lookup "milestones" fields)) as [milestones |] eqn:Hms.
  - apply (phase_body_milestones phase_idx fields milestones errors (sequence_some _ _ Hms)).
  - apply (phase_body_no_milestones phase_idx fields errors Hms).
Qed.

Lemma gate_report_skeleton pid phase_idx gates :
  gate_report pid phase_idx
    (mark "phase_end_e2e" gates ++ mark "rolling_inter_phase_integration" gates
       ++ mark "rolling_cumulative_e2e" gates)
  = gate_report pid phase_idx gates.
Proof.
  unfold gate_report, mark, has_key.
  destruct (lookup "phase_end_e2e" gates), (lookup "rolling_inter_phase_integration" gates),
    (lookup "rolling_cumulative_e2e" gates); reflexivity.
Qed.

Lemma len_repeat {A : Type} (a : A) (l : list A) : len (repeat a (length l)) = len l.
Proof. unfold len. now rewrite repeat_length. Qed.

Lemma phase_skeleton_same phase_idx phase u errors :
  phase_body (phase_idx, phase_skeleton phase) u errors = phase_body (phase_idx, phase) u errors.
Proof.
  destruct u. destruct phase as [| | | | | | fields]; try reflexivity.
  cbn [phase_skeleton].
  set (kept := (keep "phase_id" fields ++ _)%list).
  assert (Hpid : lookup "phase_id" kept = lookup "phase_id" fields).
  { subst kept. unfold keep. destruct (lookup "phase_id" fields) eqn:H; [reflexivity |].
    destruct (sequence (lookup "waves" fields)), (sequence (lookup "milestones" fields)),
      (lookup "phase_gates" fields); reflexivity. }
  assert (Hwaves : sequence (lookup "waves" kept) =
                   option_map (fun waves => repeat JNull (length waves))
                     (sequence (lookup "waves" fields))).
  { subst kept. unfold keep.
    destruct (lookup "phase_id" fields), (sequence (lookup "waves" fields)),
      (sequence (lookup "milestones" fields)), (lookup "phase_gates" fields); reflexivity. }
  assert (Hms : sequence (lookup "milestones" kept) =
                option_map (map milestone_skeleton) (sequence (lookup "milestones" fields))).
  { subst kept. unfold keep.
    destruct (lookup "phase_id" fields), (sequence (lookup "waves" fields)),
      (sequence (lookup "milestones" fields)), (lookup "phase_gates" fields); reflexivity. }
  assert (Hgates : or_default (JDict []) (lookup "phase_gates" kept) =
                   match lookup "phase_gates" fields with
                   | Some gates => gates_skeleton gates
                   | None => JDict []
                   end).
  { subst kept. unfold keep.
    destruct (lookup "phase_id" fields), (sequence (lookup "waves" fields)),
      (sequence (lookup "milestones" fields)), (lookup "phase_gates" fields); reflexivity. }
  rewrite (phase_body_run_full phase_idx kept errors).
  rewrite (phase_body_run_full phase_idx fields errors).
  cbv zeta. unfold phase_head_report. rewrite !waves_report_sequence.
  unfold phase_ident, field. rewrite Hpid, Hwaves, Hms, Hgates.
  set (pid := or_default (JStr _) (lookup "phase_id" fields)).
  destruct (sequence (lookup "waves" fields)) as [waves |];
    destruct (sequence (lookup "milestones" fields)) as [milestones |];
    cbn [option_map]; rewrite ?len_repeat, ?len_map; try reflexivity.
  all: rewrite (for_loop_ext _ milestone_skeleton milestones);
    [| intros; apply milestone_skeleton_same].
  all: destruct (for_loop (milestone_body pid) milestones 0 _) as [[q errors'] |];
    [| reflexivity].
  all: destruct (lookup "phase_gates" fields) as [[| | | | | | gates] |];
    cbn [gates_skeleton or_default phase_gates_report]; try reflexivity.
  all: now rewrite gate_report_skeleton.
Qed.

Lemma enumerate_map {A : Type} (f : A -> A) (xs : list A) (start : Z) :
  enumerate start (map f xs) = map (fun entry => (fst entry, f (snd entry))) (enumerate start xs).
Proof.
  revert start. induction xs as [| x rest IH]; intros start; [reflexivity |].
  cbn [map enumerate fst snd]. now rewrite IH.
Qed.

(** X7: [validate] gives the same result on a document and on its
    skeleton: keys it does not name, the values of the gates and of
    [done_criteria], and the elements of [waves] are never looked at. *)
Theorem validate_reads_skeleton (plan : json) : validate (skeleton plan) = validate plan.
Proof.
  destruct plan as [| | | | | | fields]; try reflexivity.
  unfold validate, validate_from. cbn [skeleton]. rewrite !bind_get.
  destruct (lookup "phases" fields) as [[| | | | | phases |] |]; try reflexivity.
  cbn [sequence lookup String.eqb Ascii.eqb Bool.eqb or_default].
  rewrite len_map. unfold bind. rewrite !check_run.
  rewrite enumerate_map.
  rewrite (for_loop_ext phase_body (fun entry => (fst entry, phase_skeleton (snd entry))));
    [reflexivity |].
  intros [i p] s errors. apply phase_skeleton_same.
Qed.

(** ** The violations, phase by phase *)

Lemma phases_loop_reports (entries : list (Z * json)) (errors : list string) :
  forallb (fun entry => phase_shaped (snd entry) && phase_within entry) entries = true ->
  for_loop phase_body entries tt errors =
  Ret (tt, List.app errors (flat_map phase_report entries)).
Proof.
  revert errors. induction entries as [| entry rest IH]; intros errors H.
  - cbn. now rewrite app_nil_r.
  - cbn [forallb] in H. apply andb_prop in H as [Hentry Hrest].
    cbn [for_loop flat_map]. unfold bind.
    rewrite (appends_phase_body entry tt errors). unfold phase_report.
    destruct (proj2 (phase_body_returns entry tt []) Hentry) as [[[] written] Hrun].
    rewrite Hrun. cbn [frame]. rewrite (IH _ Hrest). now rewrite app_assoc.
Qed.

(** X8: on a document whose elements are mappings and whose markers
    are all within what [int] converts, the result is the message about
    the phase count, if there are fewer than seven phases, followed by
    what each phase gets on its own at its position, in the order of
    the phases. *)
Theorem violations_by_phase (fields : list (string * json)) (phases : list json) :
  lookup "phases" fields = Some (JList phases) ->
  forallb phase_shaped phases = true ->
  forallb phase_within (enumerate 1 phases) = true ->
  validate (JDict fields) =
  Ret (List.app
         (when_ (len phases <? PHASE_MIN)
            ("phase_count=" ++ str_int (len phases) ++ " < " ++ str_int PHASE_MIN))
         (flat_map phase_report (enumerate 1 phases))).
Proof.
  intros Hphases Hshaped Hwithin. unfold validate, validate_from. rewrite bind_get, Hphases.
  cbn [or_default]. unfold bind at 1. rewrite check_run.
  rewrite phases_loop_reports; [reflexivity |].
  rewrite forallb_andb, forallb_enumerate, Hshaped, Hwithin. reflexivity.
Qed.

Lemma violations_by_phase_witness :
  let first := phase_of "P1" [bare_milestone "M1"] (JDict []) in
  let second := phase_without_milestones "P2" JNull in
  validate (plan_of [first; second]) =
  Ret (List.app ["phase_count=2 < 7"]
         (flat_map phase_report [(1, first); (2, second)]))
  /\ phase_report (1, first) =
     ["P1: milestone_count=1 != 4"; "P1: M1: missing tasks[]";
      "P1: missing phase_gates.phase_end_e2e"]
  /\ phase_report (2, second) = ["P2: missing milestones[]"].
Proof.
  cbv zeta. split; [| split; reflexivity].
  apply (violations_by_phase
           [("phases", JList [phase_of "P1" [bare_milestone "M1"] (JDict []);
                              phase_without_milestones "P2" JNull])]
           [phase_of "P1" [bare_milestone "M1"] (JDict []);
            phase_without_milestones "P2" JNull]); reflexivity.
Defined.

(** X9: beyond its being the first or not, the position of a phase
    that has a [phase_id] does not show in what is written for it. *)
Theorem phase_position_irrelevant (fields : list (string * json)) (i j : Z) :
  lookup "phase_id" fields <> None -> 1 < i -> 1 < j ->
  forall errors,
    phase_body (i, JDict fields) tt errors = phase_body (j, JDict fields) tt errors.
Proof.
  intros Hid Hi Hj errors. rewrite !phase_body_run_full. unfold phase_ident, field.
  destruct (lookup "phase_id" fields) as [pid |]; [| now elim Hid]. cbn [or_default].
  unfold phase_gates_report, gate_report. apply Z.ltb_lt in Hi, Hj. now rewrite Hi, Hj.
Qed.

Lemma phase_position_irrelevant_witness :
  phase_body (2, sample_phase 3) tt [] = phase_body (5, sample_phase 3) tt [].
Proof.
  apply (phase_position_irrelevant
           [("phase_id", JStr "P3");
            ("waves", JList (repeat JNull 5));
            ("milestones", JList (map (sample_milestone "P3" 1) (seq 1 4)));
            ("phase_gates", all_gates)] 2 5); [discriminate | lia | lia].
Defined.

(** ** The running index *)

Lemma advance_le (prev : Z) (marker : option Z) : prev <= advance prev marker.
Proof.
  unfold advance. destruct marker as [i |]; [| lia].
  destruct (Z.ltb_spec prev i); lia.
Qed.

Lemma fold_advance_le (markers : list (option Z)) (prev : Z) :
  prev <= fold_left advance markers prev.
Proof.
  revert prev. induction markers as [| m rest IH]; intros prev; cbn [fold_left]; [lia |].
  pose proof (advance_le prev m). specialize (IH (advance prev m)). lia.
Qed.

Lemma tasks_loop_value pid mid tasks prev errors prev' errors' :
  for_loop (task_body pid mid) tasks prev errors = Ret (prev', errors') ->
  prev' = fold_left advance (map task_index tasks) prev.
Proof.
  revert prev errors. induction tasks as [| task rest IH]; intros prev errors H.
  - now inversion H.
  - cbn [for_loop] in H. unfold bind in H.
    destruct task as [| | | | | | fields]; try discriminate H.
    rewrite task_body_run in H. unfold task_marker in H.
    destruct (_extract_index _ "T") as [marker | e] eqn:Hm; [| discriminate H].
    apply extract_index_ret in Hm as [_ ->].
    cbn [map fold_left]. now apply (IH _ _ H).
Qed.

(** X10: over a run of milestones, and over a run of tasks, the
    running index never decreases. *)
Theorem running_index_never_decreases :
  (forall pid milestones prev errors prev' errors',
     for_loop (milestone_body pid) milestones prev errors = Ret (prev', errors') ->
     prev <= prev')
  /\ (forall pid mid tasks prev errors prev' errors',
        for_loop (task_body pid mid) tasks prev errors = Ret (prev', errors') ->
        prev <= prev').
Proof.
  split.
  - intros pid milestones prev errors prev' errors' H.
    rewrite (milestones_loop_value _ _ _ _ _ _ H). apply fold_advance_le.
  - intros pid mid tasks prev errors prev' errors' H.
    rewrite (tasks_loop_value _ _ _ _ _ _ _ H). apply fold_advance_le.
Qed.

Lemma running_index_never_decreases_witness :
  for_loop (milestone_body (JStr "P1")) [bare_milestone "M4"; bare_milestone "M2"] 1 [] =
  Ret (4, ["P1: M4: missing tasks[]"; "P1: M2: milestone sequence is not strict";
           "P1: M2: missing tasks[]"])
  /\ 1 <= 4.
Proof.
  split; [reflexivity |].
  apply (proj1 running_index_never_decreases (JStr "P1")
           [bare_milestone "M4"; bare_milestone "M2"] 1 [] 4
           ["P1: M4: missing tasks[]"; "P1: M2: milestone sequence is not strict";
            "P1: M2: missing tasks[]"]).
  reflexivity.
Defined.

(** X11: a milestone whose marker has index 0 is reported as out of
    sequence wherever it stands in its phase. *)
Theorem zero_marker_always_reported
    (pid : json) (before : list json) (fields : list (string * json))
    (errors : list string) (prev : Z) (errors' : list string) :
  for_loop (milestone_body pid) before 0 errors = Ret (prev, errors') ->
  milestone_marker pid (JDict fields) = Ret (Some 0) ->
  check_milestone_marker pid (milestone_ident pid (JDict fields)) prev errors' =
  Ret (prev,
       List.app errors'
         [fmt pid ++ ": " ++ fmt (milestone_ident pid (JDict fields))
            ++ ": milestone sequence is not strict"]).
Proof.
  intros Hloop Hzero.
  assert (Hprev : 0 <= prev).
  { rewrite (milestones_loop_value _ _ _ _ _ _ Hloop). apply fold_advance_le. }
  rewrite check_milestone_marker_run. unfold milestone_marker_report.
  unfold milestone_marker in Hzero. rewrite Hzero. unfold advance.
  destruct (Z.ltb_spec prev 0); [lia |]. destruct (Z.leb_spec 0 prev); [reflexivity | lia].
Qed.

Lemma zero_marker_always_reported_witness :
  let before := [JDict []; bare_milestone "M2"] in
  for_loop (milestone_body (JStr "P1")) before 0 ["P1: wave_count=1 < 5"] =
  Ret (2, ["P1: wave_count=1 < 5";
           "P1: P1:milestone: missing milestone sequence marker";
           "P1: P1:milestone: missing tasks[]"; "P1: M2: missing tasks[]"])
  /\ milestone_marker (JStr "P1") (bare_milestone "M0") = Ret (Some 0)
  /\ check_milestone_marker (JStr "P1")
       (milestone_ident (JStr "P1") (bare_milestone "M0")) 2
       ["P1: wave_count=1 < 5";
        "P1: P1:milestone: missing milestone sequence marker";
        "P1: P1:milestone: missing tasks[]"; "P1: M2: missing tasks[]"] =
     Ret (2, ["P1: wave_count=1 < 5";
              "P1: P1:milestone: missing milestone sequence marker";
              "P1: P1:milestone: missing tasks[]"; "P1: M2: missing tasks[]";
              "P1: M0: milestone sequence is not strict"]).
Proof.
  cbv zeta. split; [reflexivity | split; [reflexivity |]].
  apply (zero_marker_always_reported (JStr "P1") [JDict []; bare_milestone "M2"]
           [("milestone_id", JStr "M0")] ["P1: wave_count=1 < 5"] 2
           ["P1: wave_count=1 < 5";
            "P1: P1:milestone: missing milestone sequence marker";
            "P1: P1:milestone: missing tasks[]"; "P1: M2: missing tasks[]"]);
    reflexivity.
Defined.

(** ** Every message names its phase *)

Lemma prefix_append (p rest : string) : prefix p (p ++ rest) = true.
Proof.
  induction p as [| c p' IH]; cbn [append prefix].
  - now destruct rest.
  - destruct (ascii_dec c c) as [_ | H]; [exact IH | now elim H].
Qed.

Lemma prefix_strip (a x y : string) : prefix x y = true -> prefix (a ++ x) (a ++ y) = true.
Proof.
  intros H. induction a as [| c a' IH]; [exact H |]. cbn [append prefix].
  destruct (ascii_dec c c) as [_ | Hc]; [exact IH | now elim Hc].
Qed.

Ltac solve_prefix :=
  repeat apply prefix_strip; first [reflexivity | apply prefix_append].

Section Prefixed.
Context {A B : Type} (p : string).

Lemma prefixed_ret (a : A) : writes_prefixed p (ret a).
Proof.
  intros errors a' errors' H. inversion H; subst. exists []. split; [now rewrite app_nil_r | constructor].
Qed.

Lemma prefixed_bind (c : M A) (k : A -> M B) :
  writes_prefixed p c -> (forall a, writes_prefixed p (k a)) -> writes_prefixed p (bind c k).
Proof.
  intros Hc Hk errors b errors' H. unfold bind in H.
  destruct (c errors) as [[a e1] |] eqn:Hce; [| discriminate H].
  destruct (Hc _ _ _ Hce) as (w1 & -> & F1). destruct (Hk a _ _ _ H) as (w2 & -> & F2).
  exists (w1 ++ w2)%list. split; [now rewrite app_assoc | now apply Forall_app].
Qed.

End Prefixed.

Lemma prefixed_err (p message : string) :
  prefix p message = true -> writes_prefixed p (_err message).
Proof.
  intros Hp errors a errors' H. inversion H; subst. exists [message]. split; [reflexivity |].
  now constructor.
Qed.

Lemma prefixed_lift {A : Type} (p : string) (o : outcome A) : writes_prefixed p (lift o).
Proof.
  intros errors a errors' H. unfold lift in H. destruct o; inversion H; subst.
  exists []. split; [now rewrite app_nil_r | constructor].
Qed.

Lemma prefixed_py_get (p : string) obj key default : writes_prefixed p (py_get obj key default).
Proof. destruct obj; try (intros errors a errors' H; discriminate H). apply prefixed_ret. Qed.

Lemma prefixed_py_not_in (p : string) key obj : writes_prefixed p (py_not_in key obj).
Proof. destruct obj; try (intros errors a errors' H; discriminate H); apply prefixed_ret. Qed.

Lemma prefixed_for_loop {A S : Type} (p : string) (body : A -> S -> M S) (xs : list A) :
  (forall x s, writes_prefixed p (body x s)) -> forall s, writes_prefixed p (for_loop body xs s).
Proof.
  intros Hbody. induction xs as [| x rest IH]; intros s; cbn [for_loop].
  - apply prefixed_ret.
  - apply prefixed_bind; [apply Hbody | exact IH].
Qed.

Ltac prefixed_step :=
  first
    [ apply prefixed_ret
    | apply prefixed_err; solve_prefix
    | apply prefixed_py_get
    | apply prefixed_lift
    | apply prefixed_py_not_in
    | apply prefixed_bind; [| intros ?]
    | match goal with
      | |- writes_prefixed _ (if ?b then _ else _) => destruct b
      | |- writes_prefixed _ (match ?x with _ => _ end) => destruct x
      end ].

Lemma prefixed_task_body pid mid task prev :
  writes_prefixed (fmt pid ++ ": " ++ fmt mid ++ ": ") (task_body pid mid task prev).
Proof. unfold task_body, check_task_marker. repeat prefixed_step. Qed.

Lemma prefixed_milestone_body_mid pid fields prev :
  writes_prefixed (fmt pid ++ ": " ++ fmt (milestone_ident pid (JDict fields)) ++ ": ")
    (milestone_body pid (JDict fields) prev).
Proof.
  unfold milestone_body. intros errors. rewrite bind_get. revert errors.
  fold (milestone_ident pid (JDict fields)).
  change (or_default (JStr (fmt pid ++ ":milestone")) (lookup "milestone_id" fields))
    with (milestone_ident pid (JDict fields)).
  unfold check_milestone_marker.
  change (writes_prefixed (fmt pid ++ ": " ++ fmt (milestone_ident pid (JDict fields)) ++ ": ")
    (fun errors => ?c errors)) with
    (writes_prefixed (fmt pid ++ ": " ++ fmt (milestone_ident pid (JDict fields)) ++ ": ") c).
  repeat first
    [ apply prefixed_for_loop; intros; apply prefixed_task_body
    | prefixed_step ].
Qed.

Lemma append_assoc_string (a b c : string) : (a ++ b) ++ c = a ++ b ++ c.
Proof. induction a as [| x a' IH]; [reflexivity |]. cbn [append]. now rewrite IH. Qed.

Lemma prefix_shorter (a b message : string) :
  prefix (a ++ b) message = true -> prefix a message = true.
Proof.
  revert message. induction a as [| c a' IH]; intros message H; [now destruct message |].
  destruct message as [| d rest]; [discriminate H |]. cbn [append prefix] in *.
  destruct (ascii_dec c d); [now apply IH | discriminate H].
Qed.

Lemma prefixed_weaken {A : Type} (a b : string) (c : M A) :
  writes_prefixed (a ++ b) c -> writes_prefixed a c.
Proof.
  intros H errors x errors' Hrun. destruct (H _ _ _ Hrun) as (written & -> & F).
  exists written. split; [reflexivity |].
  eapply Forall_impl; [| exact F]. intros message. apply prefix_shorter.
Qed.

Lemma prefixed_milestone_body pid milestone prev :
  writes_prefixed (fmt pid ++ ": ") (milestone_body pid milestone prev).
Proof.
  destruct milestone as [| | | | | | fields];
    try (intros errors a errors' H; discriminate H).
  apply (prefixed_weaken _ (fmt (milestone_ident pid (JDict fields)) ++ ": ")).
  rewrite append_assoc_string. apply prefixed_milestone_body_mid.
Qed.

Lemma prefixed_phase_body phase_idx phase u :
  writes_prefixed (fmt (phase_ident phase_idx phase) ++ ": ") (phase_body (phase_idx, phase) u).
Proof.
  destruct phase as [| | | | | | fields];
    try (intros errors a errors' H; discriminate H).
  unfold phase_body. intros errors. rewrite bind_get. revert errors.
  change (or_default (JStr ("phase[" ++ str_int phase_idx ++ "]")) (lookup "phase_id" fields))
    with (phase_ident phase_idx (JDict fields)).
  set (pid := phase_ident phase_idx (JDict fields)).
  change (writes_prefixed (fmt pid ++ ": ") (fun errors => ?c errors))
    with (writes_prefixed (fmt pid ++ ": ") c).
  repeat first
    [ apply prefixed_for_loop; intros; apply prefixed_milestone_body
    | prefixed_step ].
Qed.

(** X12: every message written for a phase starts with the display
    id of the phase, and every message written for a milestone with the
    display ids of its phase and of the milestone. *)
Theorem messages_name_their_phase :
  (forall phase_idx phase errors errors',
     phase_body (phase_idx, phase) tt errors = Ret (tt, errors') ->
     exists written,
       errors' = List.app errors written
       /\ Forall (fun message =>
                    prefix (fmt (phase_ident phase_idx phase) ++ ": ") message = true)
            written)
  /\ (forall pid fields prev errors prev' errors',
        milestone_body pid (JDict fields) prev errors = Ret (prev', errors') ->
        exists written,
          errors' = List.app errors written
          /\ Forall (fun message =>
                       prefix (fmt pid ++ ": " ++ fmt (milestone_ident pid (JDict fields)) ++ ": ")
                         message = true)
               written).
Proof.
  split.
  - intros phase_idx phase errors errors' H. exact (prefixed_phase_body _ _ _ _ _ _ H).
  - intros pid fields prev errors prev' errors' H.
    exact (prefixed_milestone_body_mid _ _ _ _ _ _ H).
Qed.

Lemma messages_name_their_phase_witness :
  exists written,
    ["P2: missing waves[]"; "P2: missing milestones[]"] = List.app [] written
    /\ Forall (fun message => prefix "P2: " message = true) written.
Proof.
  apply (proj1 messages_name_their_phase 2 (JDict [("phase_id", JStr "P2")]) []
           ["P2: missing waves[]"; "P2: missing milestones[]"]).
  reflexivity.
Defined.

(** ** The command line *)

Import Cli.

Lemma len_two {A : Type} (l : list A) : (len l =? 2) = true <-> exists a b, l = [a; b].
Proof.
  unfold len. rewrite Z.eqb_eq. split.
  - destruct l as [| a [| b [| c rest]]]; cbn [length]; try lia. intros _. now exists a, b.
  - intros (a & b & ->). reflexivity.
Qed.

Lemma main_reads (w : world) (argv : list string) (plan : json) :
  plan_read w argv = Some plan ->
  main w argv =
  match validate plan with
  | Raise e => Crash (ValidateFailed e)
  | Ret [] => Exit 0 ["contract validation passed"]
  | Ret errors => Exit 1 ("contract validation failed:" :: map (fun err => "- " ++ err) errors)
  end.
Proof.
  unfold plan_read, main. destruct argv as [| prog [| arg [| extra rest]]]; try discriminate.
  cbn [len length Z.of_nat Z.eqb negb nth Pos.of_succ_nat Pos.succ Pos.eqb].
  destruct (path_exists w arg); [| discriminate]. cbn [negb].
  destruct (read_text w arg) as [text |]; [| discriminate].
  destruct (loads w text) as [p | |]; try discriminate.
  intros H. inversion H; subst. destruct (validate plan) as [[| e errors] |]; reflexivity.
Qed.

Lemma main_without_plan (w : world) (argv : list string) :
  plan_read w argv = None ->
  forall printed, main w argv <> Exit 0 printed /\ main w argv <> Exit 1 printed.
Proof.
  unfold main. intros H printed.
  destruct (len argv =? 2) eqn:Hlen; cbn [negb]; [| split; discriminate].
  apply len_two in Hlen as (prog & arg & ->). cbn [nth plan_read] in *.
  destruct (path_exists w arg); cbn [negb]; [| split; discriminate].
  destruct (read_text w arg) as [text |]; [| split; discriminate].
  destruct (loads w text) as [p | |]; first [discriminate H | split; discriminate].
Qed.

(** X13: [main] ends with status 0 exactly when the file named on
    the command line was read and parsed to a document on which
    [validate] returned the empty list; it then prints the one line
    that says so.  A document that satisfies the contract, with no
    marker beyond what [int] converts, ends that way; and on a document
    with string identifiers status 0 means that the contract is
    satisfied. *)
Theorem main_exits_zero_iff (w : world) (argv : list string) (printed : list string) :
  (main w argv = Exit 0 printed <->
   (exists plan, plan_read w argv = Some plan /\ validate plan = Ret [])
   /\ printed = ["contract validation passed"])
  /\ (forall plan,
        plan_read w argv = Some plan ->
        (conforms plan = true -> within plan = true ->
         main w argv = Exit 0 ["contract validation passed"])
        /\ (string_ids plan = true -> main w argv = Exit 0 printed ->
            conforms plan = true /\ within plan = true)).
Proof.
  split.
  - destruct (plan_read w argv) as [plan |] eqn:Hread.
    + rewrite (main_reads w argv plan Hread).
      destruct (validate plan) as [[| e errors] |] eqn:Hv.
      * split.
        -- intros H. inversion H; subst. split; [| reflexivity]. now exists plan.
        -- intros [_ ->]. reflexivity.
      * split; [discriminate |]. intros [(p & Hp & Hc) _]. inversion Hp; subst.
        rewrite Hv in Hc. discriminate Hc.
      * split; [discriminate |]. intros [(p & Hp & Hc) _]. inversion Hp; subst.
        rewrite Hv in Hc. discriminate Hc.
    + split.
      * intros H. now apply (main_without_plan w argv Hread printed) in H.
      * intros [(p & Hp & _) _]. discriminate Hp.
  - intros plan Hread. rewrite (main_reads w argv plan Hread). split.
    + intros Hc Hw.
      assert (Hv : validate plan = Ret []).
      { apply validate_clean. now apply conforms_accepted. }
      now rewrite Hv.
    + intros Hids H.
      assert (Hv : validate plan = Ret []).
      { destruct (validate plan) as [[| e errors] |]; first [reflexivity | discriminate H]. }
      split.
      * apply accepted_conforms; [exact Hids | now apply validate_clean].
      * apply validate_returns. now exists [].
Qed.

Lemma main_exits_zero_iff_witness :
  let w := one_file "plan.json" "{...}" (Parsed (sample_plan 7)) in
  plan_read w ["validate"; "plan.json"] = Some (sample_plan 7)
  /\ main w ["validate"; "plan.json"] = Exit 0 ["contract validation passed"]
  /\ conforms (sample_plan 7) = true.
Proof.
  cbv zeta.
  assert (Hread : plan_read (one_file "plan.json" "{...}" (Parsed (sample_plan 7)))
                    ["validate"; "plan.json"] = Some (sample_plan 7)) by reflexivity.
  assert (Hmain : main (one_file "plan.json" "{...}" (Parsed (sample_plan 7)))
                    ["validate"; "plan.json"] = Exit 0 ["contract validation passed"]).
  { apply (proj1 (proj2 (main_exits_zero_iff _ _ ["contract validation passed"]) _ Hread));
      vm_compute; reflexivity. }
  split; [exact Hread | split; [exact Hmain |]].
  apply (proj2 (proj2 (main_exits_zero_iff _ _ ["contract validation passed"]) _ Hread));
    [vm_compute; reflexivity | exact Hmain].
Defined.

(** X14: [main] ends with status 1 exactly when the document was
    read and [validate] returned violations; it then prints the heading
    and one line a violation, in order, each after a dash. *)
Theorem main_exits_one_iff (w : world) (argv : list string) (printed : list string) :
  main w argv = Exit 1 printed <->
  exists plan errors,
    plan_read w argv = Some plan
    /\ validate plan = Ret errors
    /\ errors <> []
    /\ printed = "contract validation failed:" :: map (fun err => "- " ++ err) errors.
Proof.
  destruct (plan_read w argv) as [plan |] eqn:Hread.
  - rewrite (main_reads w argv plan Hread).
    destruct (validate plan) as [[| e errors] |] eqn:Hv.
    + split; [discriminate |]. intros (p & errs & Hp & Hr & Hne & _).
      inversion Hp; subst. rewrite Hv in Hr. inversion Hr; subst. now elim Hne.
    + split.
      * intros H. inversion H; subst. exists plan, (e :: errors). now repeat split.
      * intros (p & errs & Hp & Hr & _ & ->). inversion Hp; subst. rewrite Hv in Hr.
        now inversion Hr.
    + split; [discriminate |]. intros (p & errs & Hp & Hr & _). inversion Hp; subst.
      rewrite Hv in Hr. discriminate Hr.
  - split.
    + intros H. now apply (main_without_plan w argv Hread printed) in H.
    + intros (p & errs & Hp & _). discriminate Hp.
Qed.

Lemma len_not_two {A : Type} (l : list A) : (len l =? 2) = false <-> length l <> 2%nat.
Proof. unfold len. rewrite Z.eqb_neq. lia. Qed.

(** X15: [main] ends with status 2 exactly for a wrong number of
    arguments, a file that does not exist or a text that is not JSON;
    it prints one line and [validate] is not run. *)
Theorem main_exits_two_iff (w : world) (argv : list string) (printed : list string) :
  main w argv = Exit 2 printed <->
  (length argv <> 2%nat
   /\ printed = ["usage: validate_generated_plan_contract.py <plan.json>"])
  \/ (exists prog arg,
        argv = [prog; arg]
        /\ ((path_exists w arg = false
             /\ printed = ["error: file not found: " ++ path_text w arg])
            \/ (path_exists w arg = true
                /\ exists text message,
                     read_text w arg = Some text
                     /\ loads w text = JSONDecodeError message
                     /\ printed = ["error: invalid json: " ++ message]))).
Proof.
  unfold main. destruct (len argv =? 2) eqn:Hlen; cbn [negb].
  - pose proof Hlen as Hlen'. apply len_two in Hlen as (prog & arg & ->). cbn [nth].
    split.
    + intros H. right. exists prog, arg. split; [reflexivity |].
      destruct (path_exists w arg); cbn [negb] in H.
      * right. split; [reflexivity |].
        destruct (read_text w arg) as [text |]; [| discriminate H].
        destruct (loads w text) as [plan | message |] eqn:Hl; try discriminate H.
        -- destruct (validate plan) as [[| e errors] |]; discriminate H.
        -- inversion H; subst. now exists text, message.
      * left. inversion H; subst. now split.
    + intros [[Hne _] | (p & a & Heq & H)]; [now elim Hne |].
      inversion Heq; subst.
      destruct H as [[Hex ->] | (Hex & text & message & Hr & Hl & ->)];
        rewrite Hex; cbn [negb]; [reflexivity |]. now rewrite Hr, Hl.
  - apply len_not_two in Hlen. split.
    + intros H. inversion H; subst. left. now split.
    + intros [[_ ->] | (p & a & -> & _)]; [reflexivity | now elim Hlen].
Qed.

(** X16: nothing in [main] catches what [validate] raises: once the
    document was read and parsed, [main] lets an exception through
    exactly when [validate] raises one, and it is that exception, an
    [AttributeError] for a non-mapping or a [ValueError] for a marker
    that [int] does not convert.  A file that is there but cannot be
    read, and a [json.loads] that raises something else than a decoding
    error, are let through too. *)
Theorem main_lets_exceptions_through (w : world) (prog arg : string) :
  path_exists w arg = true ->
  (read_text w arg = None -> main w [prog; arg] = Crash ReadFailed)
  /\ (forall text,
        read_text w arg = Some text -> loads w text = ParserRaised ->
        main w [prog; arg] = Crash ParserFailed)
  /\ (forall plan,
        plan_read w [prog; arg] = Some plan ->
        forall why,
          main w [prog; arg] = Crash why <->
          exists e, validate plan = Raise e /\ why = ValidateFailed e)
  /\ (forall plan e,
        plan_read w [prog; arg] = Some plan ->
        main w [prog; arg] = Crash (ValidateFailed e) ->
        (e = AttributeError /\ shaped plan = false)
        \/ (e = ValueError /\ within plan = false)).
Proof.
  intros Hex. split; [| split; [| split]].
  - intros Hr. unfold main. cbn [len length Z.of_nat Z.eqb negb nth Pos.of_succ_nat Pos.succ
      Pos.eqb]. now rewrite Hex, Hr.
  - intros text Hr Hl. unfold main. cbn [len length Z.of_nat Z.eqb negb nth Pos.of_succ_nat
      Pos.succ Pos.eqb]. now rewrite Hex, Hr, Hl.
  - intros plan Hread why. rewrite (main_reads w _ plan Hread).
    destruct (validate plan) as [[| m errors] | e]; split;
      try discriminate; try (intros (e' & H & _); discriminate H).
    + intros H. inversion H; subst. now exists e.
    + intros (e' & H & ->). now inversion H.
  - intros plan e Hread H. rewrite (main_reads w _ plan Hread) in H.
    destruct (validate plan) as [[| m errors] | e'] eqn:Hv; try discriminate H.
    inversion H; subst. now apply validate_raise.
Qed.

Lemma main_lets_exceptions_through_witness :
  let w := one_file "plan.json" "{...}" (Parsed long_marker_plan) in
  path_exists w "plan.json" = true
  /\ plan_read w ["validate"; "plan.json"] = Some long_marker_plan
  /\ validate long_marker_plan = Raise ValueError
  /\ main w ["validate"; "plan.json"] = Crash (ValidateFailed ValueError).
Proof.
  cbv zeta. split; [reflexivity | split; [reflexivity |]].
  assert (Hv : validate long_marker_plan = Raise ValueError) by (vm_compute; reflexivity).
  split; [exact Hv |].
  apply (proj1 (proj2 (proj2 (main_lets_exceptions_through
                                (one_file "plan.json" "{...}" (Parsed long_marker_plan))
                                "validate" "plan.json" eq_refl)))
           long_marker_plan eq_refl).
  now exists ValueError.
Defined.

(** X17: when [main] returns, the status is 0, 1 or 2 and at least
    one line was printed. *)
Theorem main_status_range (w : world) (argv : list string) (status : Z)
    (printed : list string) :
  main w argv = Exit status printed ->
  (status = 0 \/ status = 1 \/ status = 2) /\ printed <> [].
Proof.
  unfold main. destruct (len argv =? 2); cbn [negb].
  2:{ intros H. inversion H; subst. split; [auto | discriminate]. }
  destruct (path_exists w _); cbn [negb].
  2:{ intros H. inversion H; subst. split; [auto | discriminate]. }
  destruct (read_text w _) as [text |]; [| discriminate].
  destruct (loads w text) as [plan | message |]; try discriminate.
  - destruct (validate plan) as [[| e errors] |]; try discriminate;
      intros H; inversion H; subst; split; first [discriminate | auto].
  - intros H. inversion H; subst. split; [auto | discriminate].
Qed.

Lemma main_status_range_witness :
  main (one_file "plan.json" "{}" (Parsed (JDict []))) ["validate"; "plan.json"] =
  Exit 1 ["contract validation failed:"; "- Missing required array: phases"]
  /\ ((1 = 0 \/ 1 = 1 \/ 1 = 2)
      /\ ["contract validation failed:"; "- Missing required array: phases"] <> []).
Proof.
  split; [reflexivity |].
  apply (main_status_range (one_file "plan.json" "{}" (Parsed (JDict [])))
           ["validate"; "plan.json"]).
  reflexivity.
Defined.

